(** * rag_avancado: retrieval fusion, response cache and agent loop

    A shallow embedding of the retrieval-and-answer core of the repository
    (src/advanced_retriever.py, src/cache_manager.py, src/rag_streaming.py,
    src/autonomous_agent.py, src/agent_tools.py) together with the
    properties its specification states about it.

    Conventions of the embedding:
    - a Python [str] is the list of its Unicode code points;
    - a Python [float] score is an exact rational ([Qc]); rounding and the
      non-finite values of IEEE arithmetic are outside the model;
    - a Python [dict] whose iteration order is observable is an
      insertion-ordered association list; the diskcache stores, which are
      only ever looked up by key, are [gmap]s;
    - external collaborators (vector index, BM25 index, cross-encoder,
      generation backend, JSON decoder, tools) are Section variables;
      a raised exception is [None] or [Raise]. *)

From Stdlib Require Import Ascii String QArith Qcanon.
From Stdlib Require Qcabs.
From stdpp Require Import base numbers list option strings pretty gmap.

Open Scope Z_scope.

(* ===================================================================== *)
(** ** Python strings *)
(* ===================================================================== *)

Module PyStr.

(** A Python string: its sequence of code points. *)
Definition str := list N.

(** Decoder for the literals of this file: reads the UTF-8 bytes of a
    Rocq string into code points, so that a Python literal can be written
    as it appears in the source. *)
Fixpoint bytes_of (s : string) : list N :=
  match s with
  | EmptyString => []
  | String a s' => N_of_ascii a :: bytes_of s'
  end.

Definition cont (b : N) : N := N.land b 0x3F.

Fixpoint utf8_decode (fuel : nat) (bs : list N) : str :=
  match fuel with
  | O => []
  | S fuel' =>
    match bs with
    | [] => []
    | b0 :: r0 =>
      if (b0 <? 0x80)%N then b0 :: utf8_decode fuel' r0
      else if (b0 <? 0xE0)%N then
        match r0 with
        | b1 :: r1 =>
            (N.shiftl (N.land b0 0x1F) 6 + cont b1)%N :: utf8_decode fuel' r1
        | _ => []
        end
      else if (b0 <? 0xF0)%N then
        match r0 with
        | b1 :: b2 :: r2 =>
            (N.shiftl (N.land b0 0x0F) 12 + N.shiftl (cont b1) 6 + cont b2)%N
              :: utf8_decode fuel' r2
        | _ => []
        end
      else
        match r0 with
        | b1 :: b2 :: b3 :: r3 =>
            (N.shiftl (N.land b0 0x07) 18 + N.shiftl (cont b1) 12
             + N.shiftl (cont b2) 6 + cont b3)%N :: utf8_decode fuel' r3
        | _ => []
        end
    end
  end.

Definition py (s : string) : str :=
  let bs := bytes_of s in utf8_decode (length bs) bs.

(** [str.encode()]: UTF-8. *)
Definition encode_cp (c : N) : list N :=
  if (c <? 0x80)%N then [c]
  else if (c <? 0x800)%N then
    [N.lor 0xC0 (N.shiftr c 6); N.lor 0x80 (N.land c 0x3F)]
  else if (c <? 0x10000)%N then
    [N.lor 0xE0 (N.shiftr c 12); N.lor 0x80 (N.land (N.shiftr c 6) 0x3F);
     N.lor 0x80 (N.land c 0x3F)]
  else
    [N.lor 0xF0 (N.shiftr c 18); N.lor 0x80 (N.land (N.shiftr c 12) 0x3F);
     N.lor 0x80 (N.land (N.shiftr c 6) 0x3F); N.lor 0x80 (N.land c 0x3F)].

Definition encode (s : str) : list N := concat (map encode_cp s).

(** [str.isspace] on one code point: the whitespace that [strip()] with no
    argument removes. *)
Definition is_space (c : N) : bool :=
  ((0x09 <=? c) && (c <=? 0x0D) || (0x1C <=? c) && (c <=? 0x20)
   || (c =? 0x85) || (c =? 0xA0) || (c =? 0x1680)
   || (0x2000 <=? c) && (c <=? 0x200A)
   || (c =? 0x2028) || (c =? 0x2029) || (c =? 0x202F) || (c =? 0x205F)
   || (c =? 0x3000))%N.

Fixpoint lstrip (s : str) : str :=
  match s with
  | c :: s' => if is_space c then lstrip s' else s
  | [] => []
  end.

Definition rstrip (s : str) : str := rev (lstrip (rev s)).

Definition strip (s : str) : str := rstrip (lstrip s).

(** [str.lower] on one code point, for the ASCII and Latin-1 letters; the
    case table of the remaining Unicode blocks is not part of the model
    (such code points are left as they are). *)
Definition lower_cp (c : N) : N :=
  if ((0x41 <=? c) && (c <=? 0x5A))%N then (c + 32)%N
  else if ((0xC0 <=? c) && (c <=? 0xDE) && negb (c =? 0xD7))%N then (c + 32)%N
  else c.

Definition lower (s : str) : str := map lower_cp s.

(** [s.startswith(prefix)] *)
Fixpoint startswith (s prefix : str) : bool :=
  match prefix, s with
  | [], _ => true
  | p :: prefix', c :: s' => (p =? c)%N && startswith s' prefix'
  | _ :: _, [] => false
  end.

(** [s.split(sep)] for a one-character separator: never empty. *)
Fixpoint split (sep : N) (s : str) : list str :=
  match s with
  | [] => [[]]
  | c :: s' =>
    if (c =? sep)%N then [] :: split sep s'
    else match split sep s' with
         | l :: ls => (c :: l) :: ls
         | [] => [[c]]
         end
  end.

(** [s.find(c)] and [s.rfind(c)] for one character; -1 when absent. *)
Fixpoint find_from (c : N) (s : str) (i : Z) : Z :=
  match s with
  | [] => -1
  | x :: s' => if (x =? c)%N then i else find_from c s' (i + 1)
  end.

Definition find (s : str) (c : N) : Z := find_from c s 0.

Fixpoint rfind_from (c : N) (s : str) (i : Z) (last : Z) : Z :=
  match s with
  | [] => last
  | x :: s' => rfind_from c s' (i + 1) (if (x =? c)%N then i else last)
  end.

Definition rfind (s : str) (c : N) : Z := rfind_from c s 0 (-1).

(** [s[a:b]] for non-negative bounds. *)
Definition slice (s : str) (a b : Z) : str :=
  take (Z.to_nat b - Z.to_nat a)%nat (drop (Z.to_nat a) s).

Definition NL : N := 10.

End PyStr.
Export PyStr.

(* ===================================================================== *)
(** ** hashlib.sha256 (FIPS 180-4) *)
(* ===================================================================== *)

Module SHA256.

Definition w32 (x : N) : N := N.land x 0xFFFFFFFF.
Definition add32 (a b : N) : N := w32 (a + b).
Definition rotr (n x : N) : N :=
  N.lor (N.shiftr x n) (w32 (N.shiftl x (32 - n))).
Definition not32 (x : N) : N := N.lxor x 0xFFFFFFFF.

Definition Ch (x y z : N) := N.lxor (N.land x y) (N.land (not32 x) z).
Definition Maj (x y z : N) :=
  N.lxor (N.lxor (N.land x y) (N.land x z)) (N.land y z).
Definition Sigma0 x := N.lxor (N.lxor (rotr 2 x) (rotr 13 x)) (rotr 22 x).
Definition Sigma1 x := N.lxor (N.lxor (rotr 6 x) (rotr 11 x)) (rotr 25 x).
Definition sigma0 x := N.lxor (N.lxor (rotr 7 x) (rotr 18 x)) (N.shiftr x 3).
Definition sigma1 x := N.lxor (N.lxor (rotr 17 x) (rotr 19 x)) (N.shiftr x 10).

(** The constants are the first 32 bits of the fractional parts of the
    cube roots (round constants) and of the square roots (initial hash
    value) of the first primes. *)
Definition is_prime (n : N) : bool :=
  (1 <? n)%N
  && forallb (fun d => negb (n mod d =? 0)%N)
             (map N.of_nat (seq 2 (N.to_nat (N.sqrt n) - 1))).

Definition primes (count : nat) : list N :=
  take count (filter (fun n => is_prime n = true) (map N.of_nat (seq 2 310))).

Fixpoint cube_root (bits : nat) (n r : N) : N :=
  match bits with
  | O => r
  | S b =>
    let r' := (r + N.shiftl 1 (N.of_nat b))%N in
    cube_root b n (if (r' * r' * r' <=? n)%N then r' else r)
  end.

Definition K : list N :=
  map (fun p => w32 (cube_root 36 (N.shiftl p 96) 0)) (primes 64).

Definition H0 : list N :=
  map (fun p => w32 (N.sqrt (N.shiftl p 64))) (primes 8).

(** Padding: 0x80, zeros up to 56 mod 64, then the bit length on 8 bytes. *)
Definition be_bytes (n : nat) (x : N) : list N :=
  map (fun i => N.land (N.shiftr x (8 * N.of_nat i)) 0xFF) (rev (seq 0 n)).

Definition pad (msg : list N) : list N :=
  let len := length msg in
  let zeros := ((64 - (len + 9) mod 64) mod 64)%nat in
  msg ++ [0x80%N] ++ repeat 0%N zeros ++ be_bytes 8 (8 * N.of_nat len).

Fixpoint words (fuel : nat) (bs : list N) : list N :=
  match fuel, bs with
  | S fuel', b0 :: b1 :: b2 :: b3 :: r =>
      (N.shiftl b0 24 + N.shiftl b1 16 + N.shiftl b2 8 + b3)%N :: words fuel' r
  | _, _ => []
  end.

(** The message schedule, most recent word first. *)
Fixpoint schedule (n : nat) (rw : list N) : list N :=
  match n with
  | O => rw
  | S n' =>
    let w := add32 (add32 (sigma1 (nth 1 rw 0%N)) (nth 6 rw 0%N))
                   (add32 (sigma0 (nth 14 rw 0%N)) (nth 15 rw 0%N)) in
    schedule n' (w :: rw)
  end.

Record regs := Regs { ra : N; rb : N; rc : N; rd : N;
                      re : N; rf : N; rg : N; rh : N }.

Definition round (s : regs) (kw : N * N) : regs :=
  let '(k, w) := kw in
  let t1 := add32 (add32 (add32 (rh s) (Sigma1 (re s)))
                         (add32 (Ch (re s) (rf s) (rg s)) k)) w in
  let t2 := add32 (Sigma0 (ra s)) (Maj (ra s) (rb s) (rc s)) in
  Regs (add32 t1 t2) (ra s) (rb s) (rc s) (add32 (rd s) t1) (re s) (rf s) (rg s).

Definition compress (h : regs) (block : list N) : regs :=
  let w := rev (schedule 48 (rev block)) in
  let s := fold_left round (zip K w) h in
  Regs (add32 (ra h) (ra s)) (add32 (rb h) (rb s)) (add32 (rc h) (rc s))
       (add32 (rd h) (rd s)) (add32 (re h) (re s)) (add32 (rf h) (rf s))
       (add32 (rg h) (rg s)) (add32 (rh h) (rh s)).

Fixpoint blocks (fuel : nat) (ws : list N) (h : regs) : regs :=
  match fuel, ws with
  | S fuel', _ :: _ => blocks fuel' (drop 16 ws) (compress h (take 16 ws))
  | _, _ => h
  end.

Definition initial_regs : regs :=
  match H0 with
  | [a; b; c; d; e; f; g; h] => Regs a b c d e f g h
  | _ => Regs 0 0 0 0 0 0 0 0
  end.

Definition digest (msg : list N) : list N :=
  let bs := pad msg in
  let ws := words (length bs) bs in
  let h := blocks (length ws) ws initial_regs in
  [ra h; rb h; rc h; rd h; re h; rf h; rg h; rh h].

Definition hex_digit (d : N) : N :=
  if (d <? 10)%N then (48 + d)%N else (87 + d)%N.

Definition hex_word (w : N) : str :=
  map (fun i => hex_digit (N.land (N.shiftr w (4 * N.of_nat i)) 0xF))
      (rev (seq 0 8)).

(** [hashlib.sha256(bytes).hexdigest()] *)
Definition hexdigest (msg : list N) : str := concat (map hex_word (digest msg)).

End SHA256.

(* ===================================================================== *)
(** ** Python dicts and sorting *)
(* ===================================================================== *)

(** A [dict] with string keys, in insertion order: assigning to a key that
    is present replaces the value in place, a new key goes to the end. *)
Module PyDict.
Section Dict.
Context {V : Type}.

Definition dict := list (str * V).

Fixpoint get (d : dict) (k : str) : option V :=
  match d with
  | [] => None
  | (k', v) :: d' => if decide (k = k') then Some v else get d' k
  end.

Fixpoint set (k : str) (v : V) (d : dict) : dict :=
  match d with
  | [] => [(k, v)]
  | (k', v') :: d' =>
    if decide (k = k') then (k, v) :: d' else (k', v') :: set k v d'
  end.

Definition contains (d : dict) (k : str) : bool :=
  match get d k with Some _ => true | None => false end.

Definition keys (d : dict) : list str := map fst d.
Definition values (d : dict) : list V := map snd d.
End Dict.
Arguments dict : clear implicits.
End PyDict.

Open Scope Qc_scope.

(** [l.sort(key=lambda x: x[1], reverse=True)]: the sort is stable, and
    with [reverse=True] elements of equal key keep their original order.
    Inserting from the right, an element goes in front of the first one
    whose score is not strictly greater. *)
Section Sorting.
Context {A : Type}.

Fixpoint insert_desc (x : A * Qc) (l : list (A * Qc)) : list (A * Qc) :=
  match l with
  | [] => [x]
  | y :: l' =>
    if bool_decide (x.2 < y.2) then y :: insert_desc x l' else x :: l
  end.

Definition sort_desc (l : list (A * Qc)) : list (A * Qc) :=
  foldr insert_desc [] l.

(** Scores monotonically non-increasing by position. *)
Fixpoint non_increasing (l : list Qc) : Prop :=
  match l with
  | [] => True
  | x :: l' =>
    match l' with
    | [] => True
    | y :: _ => y <= x
    end /\ non_increasing l'
  end.
End Sorting.

(* ===================================================================== *)
(** ** src/advanced_retriever.py, src/vectorstore.py *)
(* ===================================================================== *)

(** [langchain_core.documents.Document] *)
Record Document := mkDocument {
  page_content : str;
  metadata : PyDict.dict str
}.

Definition scored := (Document * Qc)%type.

(** [doc.page_content[:100]], the key under which results are merged. *)
Definition fingerprint (doc : Document) : str := take 100 (page_content doc).

(** The Chroma index behind [VectorStoreManager]; [None] when the call
    raises (also when the store was never loaded). It returns distances. *)
Class Chroma := {
  chroma_similarity_search_with_score : str -> nat -> option (list scored)
}.

(** [rank_bm25.BM25Okapi] over the snapshot of the documents, and numpy's
    [argsort(scores)[::-1]]. [bm25_built] is false when [_initialize_bm25]
    left [self.bm25] unset. *)
Class BM25 := {
  bm25_built : bool;
  documents : list Document;
  get_scores : list str -> list Qc;
  argsort_reversed : list Qc -> list nat
}.

(** [sentence_transformers.CrossEncoder]: [None] when loading the model or
    predicting raises. *)
Class CrossEncoder := {
  reranker_available : bool;
  predict : str -> list Document -> option (list Qc)
}.

(** [BaseLLM]: the generation backend, with its state [L] so that two calls
    with the same prompt may answer differently. [generate] gives [None]
    when the call raises. *)
Class BaseLLM (L : Type) := {
  generate : L -> str -> option str * L;
  generate_stream : L -> str -> list str * L
}.

Module VectorStoreManager.
Section VectorStoreManager.
Context `{Chroma}.

Definition similarity_search_with_score (query : str) (k : nat)
  : option (list scored) :=
  results ← chroma_similarity_search_with_score query k;
  Some (map (fun '(doc, distance) => (doc, 1 / (1 + Qcabs.Qcabs distance))) results).
End VectorStoreManager.
End VectorStoreManager.

Module AdvancedRetriever.

(** [max(scores)] and [min(scores)] of a non-empty list. *)
Definition py_max (x : Qc) (l : list Qc) : Qc :=
  fold_left (fun m s => if bool_decide (m < s) then s else m) l x.
Definition py_min (x : Qc) (l : list Qc) : Qc :=
  fold_left (fun m s => if bool_decide (s < m) then s else m) l x.

Definition normalize (results : list scored) : list scored :=
  match map snd results with
  | [] => []
  | s0 :: scores =>
    let max_score := py_max s0 scores in
    let min_score := py_min s0 scores in
    let score_range :=
      if bool_decide (max_score <> min_score) then max_score - min_score
      else 1 in
    map (fun '(doc, s) => (doc, (s - min_score) / score_range)) results
  end.

Definition entry := scored.

Definition add_vector (vector_weight : Qc) (d : PyDict.dict entry)
    (r : scored) : PyDict.dict entry :=
  let '(doc, score) := r in
  PyDict.set (fingerprint doc) (doc, score * vector_weight) d.

Definition add_keyword (keyword_weight : Qc) (d : PyDict.dict entry)
    (r : scored) : PyDict.dict entry :=
  let '(doc, score) := r in
  let doc_id := fingerprint doc in
  match PyDict.get d doc_id with
  | Some (doc0, score0) =>
      PyDict.set doc_id (doc0, score0 + score * keyword_weight) d
  | None => PyDict.set doc_id (doc, score * keyword_weight) d
  end.

(** [all(doc.metadata.get(k) == v for k, v in filter_metadata.items())] *)
Definition matches (filter_metadata : PyDict.dict str) (doc : Document)
  : bool :=
  forallb (fun '(k, v) => bool_decide (PyDict.get (metadata doc) k = Some v))
          filter_metadata.

Definition _combine_results (vector_results keyword_results : list scored)
    (vector_weight : Qc) (filter_metadata : option (PyDict.dict str))
  : list scored :=
  let vector_norm := normalize vector_results in
  let keyword_norm := normalize keyword_results in
  let keyword_weight := 1 - vector_weight in
  let combined_dict := fold_left (add_vector vector_weight) vector_norm [] in
  let combined_dict :=
    fold_left (add_keyword keyword_weight) keyword_norm combined_dict in
  let combined_dict :=
    match filter_metadata with
    | Some ((_ :: _) as f) =>
        filter (fun kv => matches f (fst (snd kv)) = true) combined_dict
    | _ => combined_dict
    end in
  sort_desc (PyDict.values combined_dict).

(** [str.split()] with no argument: the maximal runs of non-whitespace. *)
Fixpoint split_ws_aux (s : str) (cur : str) : list str :=
  match s with
  | [] => match cur with [] => [] | _ => [rev cur] end
  | c :: s' =>
    if is_space c
    then match cur with
         | [] => split_ws_aux s' []
         | _ => rev cur :: split_ws_aux s' []
         end
    else split_ws_aux s' (c :: cur)
  end.
Definition split_ws (s : str) : list str := split_ws_aux s [].

(** The fallback of [rerank_results]:
    [[(doc, 1.0 - (i * 0.1)) for i, doc in enumerate(documents[:top_k])]] *)
Definition positional (documents : list Document) (top_k : nat)
  : list scored :=
  imap (fun i doc => (doc, 1 - Q2Qc (inject_Z (Z.of_nat i)) * Q2Qc 0.1))
       (take top_k documents).

Section Retriever.
Context `{Chroma} `{BM25} `{CrossEncoder}.

Definition _bm25_search (query : str) (k : nat) : list scored :=
  if negb bm25_built || bool_decide (documents = []) then []
  else
    let tokenized_query := split_ws (lower query) in
    let scores := get_scores tokenized_query in
    let top_indices := take k (argsort_reversed scores) in
    omap (fun idx =>
            match scores !! idx, documents !! idx with
            | Some s, Some doc =>
                if bool_decide (0 < s) then Some (doc, s) else None
            | _, _ => None
            end) top_indices.

Definition hybrid_search (query : str) (k : nat) (vector_weight : Qc)
    (filter_metadata : option (PyDict.dict str)) : option (list scored) :=
  vector_results ←
    VectorStoreManager.similarity_search_with_score query (k * 2);
  let keyword_results := _bm25_search query (k * 2) in
  let combined :=
    _combine_results vector_results keyword_results vector_weight
                     filter_metadata in
  Some (take k combined).

Definition rerank_results (query : str) (documents : list Document)
    (top_k : nat) : list scored :=
  if negb reranker_available then positional documents top_k
  else
    match predict query documents with
    | Some scores =>
        let doc_score_pairs := zip documents scores in
        take top_k (sort_desc doc_score_pairs)
    | None => positional documents top_k
    end.
End Retriever.

(** The enumeration prefixes that [query_expansion] strips, in order. *)
Definition prefixes : list str :=
  [py "Variação 1:"; py "Variação 2:"; py "1."; py "2."; py "-"].

Definition strip_prefix (clean prefix : str) : str :=
  if startswith clean prefix then strip (drop (length prefix) clean)
  else clean.

Definition clean_line (line : str) : str :=
  fold_left strip_prefix prefixes (strip line).

(** One round of the loop over the lines of the response. *)
Definition add_variation (variations : list str) (line : str) : list str :=
  let clean := clean_line line in
  if negb (bool_decide (clean = []))
     && bool_decide (10 < length clean)%nat
     && negb (bool_decide (clean ∈ variations))
  then variations ++ [clean]
  else variations.

Definition expansion_prompt (query : str) : str :=
  py "Gere 2 variações diferentes da seguinte pergunta:" ++ [NL; NL]
  ++ py "Pergunta: " ++ query ++ [NL; NL] ++ py "Variação 1:".

Section Expansion.
Context {L : Type} `{BaseLLM L}.

Definition query_expansion (query : str) (llm : L) : list str * L :=
  match generate llm (expansion_prompt query) with
  | (Some response, llm') =>
      let lines := split NL (strip response) in
      (take 3 (fold_left add_variation lines [query]), llm')
  | (None, llm') => ([query], llm')
  end.
End Expansion.
End AdvancedRetriever.


(* ===================================================================== *)
(** ** The event stream *)
(* ===================================================================== *)

Set Warnings "-register-all".

(** JSON values, as [json.loads] returns them. *)
Inductive json :=
| JNull
| JBool (b : bool)
| JNum (q : Qc)
| JStr (s : str)
| JArr (l : list json)
| JObj (o : list (str * json)).

(** Python truthiness of a decoded value. *)
Definition truthy (v : json) : bool :=
  match v with
  | JNull => false
  | JBool b => b
  | JNum q => negb (bool_decide (q = 0))
  | JStr s => negb (bool_decide (s = []))
  | JArr l => match l with [] => false | _ => true end
  | JObj o => match o with [] => false | _ => true end
  end.

(** One entry of a [sources] list. *)
Record source := mkSource {
  content : str;
  source_metadata : PyDict.dict str;
  score : Qc
}.

Inductive event_type :=
  status | chunk | metadata_ev | sources_ev | reasoning | tool_result.

(** The ['data'] of an event. [DFormat prefix v] is the f-string made of
    [prefix] followed by [str(v)]. *)
Inductive event_data :=
| DStr (s : str)
| DFormat (prefix : str) (v : json)
| DStep (iteration : nat) (tool_name : json)
| DMeta (confidence : Qc) (method : str)
| DAgentMeta (tools_used : list str) (iterations : nat)
| DSources (l : list source).

(** [{'type': ..., 'data': ...}] *)
Record event := Event { type : event_type; data : event_data }.

(* ===================================================================== *)
(** ** src/cache_manager.py *)
(* ===================================================================== *)

(** Time is in microseconds, the resolution of [datetime]. *)
Definition seconds (n : Z) : Z := (n * 1000000)%Z.
Definition hours (n : Z) : Z := seconds (n * 3600).

(** [diskcache.Cache]: a key-value store whose entries may carry an
    expiry time; an entry is returned while its expiry time is in the
    future, and an expired entry stays in the store until it is culled. *)
Module DiskCache.
Section DiskCache.
Context {V : Type}.

Definition get (c : gmap str (V * option Z)) (now : Z) (key : str)
  : option V :=
  match c !! key with
  | Some (v, Some expire_time) =>
      if bool_decide (now < expire_time)%Z then Some v else None
  | Some (v, None) => Some v
  | None => None
  end.

Definition set (c : gmap str (V * option Z)) (now : Z) (key : str) (v : V)
    (expire : option Z) : gmap str (V * option Z) :=
  <[key := (v, (fun e => (now + seconds e)%Z) <$> expire)]> c.
End DiskCache.
End DiskCache.

Module CacheManager.

(** The dict that [query_stream] stores as a response. *)
Record response := mkResponse {
  answer : str;
  confidence : Qc;
  method : str;
  sources : list source
}.

(** [cache_data] of [set_response_cache]. *)
Record cache_data := mkCacheData {
  cd_response : response;
  timestamp : Z;
  tokens : Z
}.

(** The counters of [stats_cache] that the response cache touches. *)
Record stats := mkStats {
  response_hits : Z;
  response_misses : Z;
  estimated_cost_saved : Qc;
  total_tokens_saved : Z
}.

Record t := mk {
  response_cache : gmap str (cache_data * option Z);
  stats_cache : stats
}.

Definition _hash_content (content : str) : str :=
  SHA256.hexdigest (encode content).

Definition record_hit (saved : Z) (s : stats) : stats :=
  mkStats (response_hits s + 1) (response_misses s)
          (estimated_cost_saved s + Q2Qc 0.01)
          (total_tokens_saved s + saved).

Definition record_miss (s : stats) : stats :=
  mkStats (response_hits s) (response_misses s + 1)
          (estimated_cost_saved s) (total_tokens_saved s).

Definition get_response_cache (self : t) (now : Z) (question : str)
  : option response * t :=
  let question_hash := _hash_content (strip (lower question)) in
  let cached := DiskCache.get (response_cache self) now question_hash in
  let miss := (None, mk (response_cache self) (record_miss (stats_cache self))) in
  match cached with
  | Some cached =>
      let cache_time := timestamp cached in
      if bool_decide (now - cache_time < hours 24)%Z
      then (Some (cd_response cached),
            mk (response_cache self)
               (record_hit (tokens cached) (stats_cache self)))
      else miss
  | None => miss
  end.

Definition set_response_cache (self : t) (now : Z) (question : str)
    (r : response) (tokens_used : Z) : t :=
  let question_hash := _hash_content (strip (lower question)) in
  let cache_data := mkCacheData r now tokens_used in
  mk (DiskCache.set (response_cache self) now question_hash cache_data
                    (Some 86400%Z))
     (stats_cache self).

End CacheManager.

(* ===================================================================== *)
(** ** src/rag.py, src/rag_streaming.py *)
(* ===================================================================== *)

Module StreamingRAGSystem.
Import AdvancedRetriever.

(** [str(n)] of a non-negative integer. *)
Definition decimal (n : nat) : str := bytes_of (pretty n).

(** [sep.join(parts)] *)
Fixpoint join (sep : str) (parts : list str) : str :=
  match parts with
  | [] => []
  | p :: ps =>
    match ps with
    | [] => p
    | _ :: _ => p ++ sep ++ join sep ps
    end
  end.

(** [RAGSystem._create_prompt] *)
Definition _create_prompt (query : str) (contexts : list str) : str :=
  let context_text :=
    join ([NL; NL] ++ py "---" ++ [NL; NL])
         (imap (fun i ctx => py "[Documento " ++ decimal (i + 1) ++ py "]"
                             ++ [NL] ++ ctx) contexts) in
  py "Baseado APENAS nos documentos fornecidos abaixo, responda a pergunta do usuário."
  ++ [NL; NL] ++ py "DOCUMENTOS:" ++ [NL] ++ context_text ++ [NL; NL]
  ++ py "PERGUNTA: " ++ query ++ [NL; NL] ++ py "INSTRUÇÕES:" ++ [NL]
  ++ py "- Use APENAS informações dos documentos fornecidos" ++ [NL]
  ++ py "- Cite as fontes usando [Documento X]" ++ [NL]
  ++ py "- Se a informação não estiver nos documentos, diga "
  ++ [34%N] ++ py "Não encontrei essa informação nos documentos fornecidos"
  ++ [34%N] ++ [NL]
  ++ py "- Seja preciso e objetivo" ++ [NL; NL] ++ py "RESPOSTA:".

Definition no_documents : str := py "Não encontrei documentos relevantes.".

(** The loop that keeps, per fingerprint, the first result of highest
    score. *)
Definition see (seen : PyDict.dict scored) (r : scored)
  : PyDict.dict scored :=
  let '(doc, score) := r in
  let doc_id := fingerprint doc in
  match PyDict.get seen doc_id with
  | None => PyDict.set doc_id (doc, score) seen
  | Some (_, best) =>
      if bool_decide (best < score) then PyDict.set doc_id (doc, score) seen
      else seen
  end.

(** [cached['answer'][i:i+10] for i in range(0, len(answer), 10)] *)
Fixpoint slices (fuel : nat) (s : str) : list str :=
  match fuel, s with
  | S fuel', _ :: _ => take 10 s :: slices fuel' (drop 10 s)
  | _, _ => []
  end.

Definition method_name (use_hybrid use_rerank : bool) : str :=
  py "streaming" ++ (if use_hybrid then py "_hybrid" else [])
  ++ (if use_rerank then py "_rerank" else []).

(** What a run of [query_stream] leaves behind: the events yielded, in
    order; whether the generator ended by an exception; the prompts
    sent to [generate_stream]; the cache and the backend afterwards. *)
Record run (L : Type) := mkRun {
  events : list event;
  raised : bool;
  synthesis_prompts : list str;
  cache_after : option CacheManager.t;
  llm_after : L
}.
Arguments mkRun {L}.
Arguments events {L}.
Arguments raised {L}.
Arguments synthesis_prompts {L}.
Arguments cache_after {L}.
Arguments llm_after {L}.

Section System.
Context {L : Type} `{BaseLLM L} `{Chroma} `{BM25} `{CrossEncoder}.
Variable k_documents : nat.

(** The searches of all query variants, accumulated; [None] when one
    of them raises. *)
Fixpoint search_all (use_hybrid : bool) (queries : list str)
  : option (list scored) :=
  match queries with
  | [] => Some []
  | q :: queries' =>
    results ←
      (if use_hybrid
       then hybrid_search q (k_documents * 3) (Q2Qc 0.7) None
       else VectorStoreManager.similarity_search_with_score
              q (k_documents * 3));
    rest ← search_all use_hybrid queries';
    Some (results ++ rest)
  end.

Definition top_results (all_results : list scored) : list scored :=
  let seen := fold_left see all_results [] in
  let unique_results := sort_desc (PyDict.values seen) in
  take (k_documents * 2) unique_results.

Definition needs_rerank (use_rerank : bool) (top : list scored) : bool :=
  use_rerank && bool_decide (k_documents < length top)%nat.

(** The final selection: [zip(final_docs, final_scores)]. *)
Definition final_selection (question : str) (use_rerank : bool)
    (top : list scored) : list scored :=
  if needs_rerank use_rerank top
  then rerank_results question (map fst top) k_documents
  else take k_documents top.

Definition replay (cached : CacheManager.response) : list event :=
  [Event status (DStr (py "💾 Cache HIT! Resposta instantânea"))]
  ++ map (fun s => Event chunk (DStr s))
         (slices (length (CacheManager.answer cached))
                 (CacheManager.answer cached))
  ++ [Event metadata_ev
            (DMeta (CacheManager.confidence cached) (py "cached"));
      Event sources_ev (DSources (CacheManager.sources cached))].

Definition mean (scores : list Qc) : Qc :=
  match scores with
  | [] => 0
  | _ => foldr Qcplus 0 scores / Q2Qc (inject_Z (Z.of_nat (length scores)))
  end.

(** The pipeline after a cache miss. [cache] is the cache as the
    lookup left it. *)
Definition answer_stream (cache : option CacheManager.t) (llm : L)
    (now_write : Z) (question : str)
    (use_hybrid use_rerank use_expansion : bool) : run L :=
  let ev0 := [Event status (DStr (py "🔍 Buscando documentos..."))] in
  let '(ev1, queries, llm1) :=
    if use_expansion
    then let '(qs, llm') := query_expansion question llm in
         (ev0 ++ [Event status (DStr (py "🔄 Expandindo query..."))],
          qs, llm')
    else (ev0, [question], llm) in
  match search_all use_hybrid queries with
  | None => mkRun ev1 true [] cache llm1
  | Some all_results =>
    let top := top_results all_results in
    let ev2 :=
      if needs_rerank use_rerank top
      then ev1 ++ [Event status (DStr (py "🎯 Reranking..."))]
      else ev1 in
    let final := final_selection question use_rerank top in
    let final_docs := map fst final in
    let final_scores := map snd final in
    match final_docs with
    | [] => mkRun (ev2 ++ [Event chunk (DStr no_documents)])
                  false [] cache llm1
    | _ :: _ =>
      let contexts := map page_content final_docs in
      let prompt := _create_prompt question contexts in
      let '(chunks, llm2) := generate_stream llm1 prompt in
      let full_answer := concat chunks in
      let avg_confidence := mean final_scores in
      let method := method_name use_hybrid use_rerank in
      let sources :=
        map (fun '(doc, score) =>
               mkSource (take 200 (page_content doc) ++ py "...")
                        (metadata doc) score) final in
      let ev3 :=
        ev2 ++ [Event status (DStr (py "🤖 Gerando resposta..." ++ [NL]))]
        ++ map (fun c => Event chunk (DStr c)) chunks
        ++ [Event metadata_ev (DMeta avg_confidence method);
            Event sources_ev (DSources sources)] in
      let cache' :=
        (fun c => CacheManager.set_response_cache c now_write question
                    (CacheManager.mkResponse full_answer avg_confidence
                                             method sources) 500%Z)
          <$> cache in
      mkRun ev3 false [prompt] cache' llm2
    end
  end.

(** [query_stream]. [cache] is [None] when [enable_cache] is off;
    [now] is the time of the lookup and [now_write] the time of the
    write at the end of the stream. *)
Definition query_stream (cache : option CacheManager.t) (llm : L)
    (now now_write : Z) (question : str)
    (use_hybrid use_rerank use_expansion : bool) : run L :=
  match cache with
  | Some c =>
    match CacheManager.get_response_cache c now question with
    | (Some cached, c') => mkRun (replay cached) false [] (Some c') llm
    | (None, c') =>
        answer_stream (Some c') llm now_write question
                      use_hybrid use_rerank use_expansion
    end
  | None =>
      answer_stream None llm now_write question
                    use_hybrid use_rerank use_expansion
  end.
End System.
End StreamingRAGSystem.

(* ===================================================================== *)
(** ** src/agent_tools.py *)
(* ===================================================================== *)

(** The concrete [AgentTool] classes. *)
Inductive tool :=
| DocumentSearchTool | CalculatorTool | DateTimeTool | KnowledgeTool
| WebSearchTool.

(** The dict a tool returns, as far as the agent reads it: the truth of
    ['success'], the ['tool'] entry and the ['sources'] entry when present. *)
Record ToolResult := mkToolResult {
  success : bool;
  tool_key : option str;
  result_sources : option (list source)
}.

Module ToolRegistry.

Definition tools : PyDict.dict tool :=
  [(py "document_search", DocumentSearchTool);
   (py "calculator", CalculatorTool);
   (py "datetime", DateTimeTool);
   (py "general_knowledge", KnowledgeTool);
   (py "web_search", WebSearchTool)].

(** [self.tools.get(name)]. The planner's value need not be a string:
    a list or an object is unhashable and the lookup raises ([None]);
    any other value that is not a key gives Python's [None]
    ([Some None]). *)
Definition get_tool (name : json) : option (option tool) :=
  match name with
  | JStr s => Some (PyDict.get tools s)
  | JArr _ | JObj _ => None
  | _ => Some None
  end.

Definition registered (name : json) : Prop :=
  exists t, get_tool name = Some (Some t).

End ToolRegistry.

(* ===================================================================== *)
(** ** src/autonomous_agent.py *)
(* ===================================================================== *)

(** What the agent needs from its surroundings besides the backend:
    [json.loads] on a slice that starts with an opening brace (a
    successful decode is an object; [None] when it raises), the execution
    of a tool ([None] when it raises; the argument is [None] for the
    call without arguments), and the two prompt builders. *)
Class AgentWorld (W : Type) := {
  agent_llm :: BaseLLM W;
  loads : str -> option (PyDict.dict json);
  execute : W -> tool -> option json -> option ToolResult * W;
  _create_planning_prompt : str -> option (list ToolResult) -> str;
  _create_final_answer_prompt : str -> list ToolResult -> str
}.

Module AutonomousAgent.

Definition max_iterations : nat := 3.

Definition default_plan : PyDict.dict json :=
  [(py "needs_tool", JBool false); (py "is_complete", JBool true)].

(** The state of one run of [process_stream]: what has been yielded,
    the results appended, and the calls made so far. *)
Record state (W : Type) := mkState {
  events : list event;
  tool_results : list ToolResult;
  planning_calls : nat;
  tool_calls : list (tool * option json);
  world : W
}.
Arguments mkState {W}.
Arguments events {W}.
Arguments tool_results {W}.
Arguments planning_calls {W}.
Arguments tool_calls {W}.
Arguments world {W}.

Inductive control := Continue | Break.

(** [plan.get(key, False)] as a condition. *)
Definition flag (plan : PyDict.dict json) (key : str) : bool :=
  match PyDict.get plan key with
  | Some v => truthy v
  | None => false
  end.

(** [tool_name == "..."] *)
Definition is_name (v : json) (s : str) : bool :=
  match v with
  | JStr s' => bool_decide (s' = s)
  | _ => false
  end.

Section Agent.
Context {W : Type} `{AgentWorld W}.

Definition _parse_json_response (response : str) : PyDict.dict json :=
  let start := find response 123%N in
  let end_ := (rfind response 125%N + 1)%Z in
  if bool_decide (0 <= start)%Z && bool_decide (start < end_)%Z
  then match loads (slice response start end_) with
       | Some plan => plan
       | None => default_plan
       end
  else default_plan.

Definition yield (e : event) (st : state W) : state W :=
  mkState (events st ++ [e]) (tool_results st) (planning_calls st)
          (tool_calls st) (world st).

(** The chain of comparisons that calls the tool. *)
Definition run_tool (t : tool) (tool_name tool_input : json) (st : state W)
  : option ToolResult * state W :=
  let call arg :=
    let '(r, w) := execute (world st) t arg in
    (r, mkState (events st) (tool_results st) (planning_calls st)
                (tool_calls st ++ [(t, arg)]) w) in
  if is_name tool_name (py "document_search") then call (Some tool_input)
  else if is_name tool_name (py "calculator") then call (Some tool_input)
  else if is_name tool_name (py "datetime") then call None
  else if is_name tool_name (py "general_knowledge")
       then call (Some tool_input)
  else if is_name tool_name (py "web_search") then call (Some tool_input)
  else (Some (mkToolResult false None None), st).

(** The [if 'tool' in plan and plan['tool']] block, after the status
    event. *)
Definition act (tool_name tool_input : json) (st : state W)
  : state W * control :=
  match ToolRegistry.get_tool tool_name with
  | None => (st, Break)
  | Some None => (st, Continue)
  | Some (Some t) =>
    match run_tool t tool_name tool_input st with
    | (None, st') => (st', Break)
    | (Some result, st') =>
      let st' := mkState (events st') (tool_results st' ++ [result])
                         (planning_calls st') (tool_calls st') (world st') in
      if success result
      then (yield (Event tool_result (DStr (py "✅ OK"))) st', Continue)
      else (yield (Event tool_result (DStr (py "⚠️ Erro"))) st', Break)
    end
  end.

(** The body of the loop for one value of [iteration]. *)
Definition iterate (question : str) (iteration : nat) (st : state W)
  : state W * control :=
  let planning_prompt :=
    _create_planning_prompt question
      (match tool_results st with [] => None | rs => Some rs end) in
  let '(plan_response, w) := generate (world st) planning_prompt in
  let st := mkState (events st) (tool_results st) (S (planning_calls st))
                    (tool_calls st) w in
  match plan_response with
  | None => (st, Break)
  | Some plan_response =>
    let plan := _parse_json_response plan_response in
    let st :=
      match PyDict.get plan (py "reasoning") with
      | Some r =>
          if bool_decide (iteration = 0%nat)
          then yield (Event reasoning (DFormat (py "💭 ") r)) st
          else st
      | None => st
      end in
    if flag plan (py "is_complete") || negb (flag plan (py "needs_tool"))
    then (st, Break)
    else
      match PyDict.get plan (py "tool") with
      | Some tool_name =>
        if truthy tool_name then
          let tool_input :=
            default (JStr question) (PyDict.get plan (py "tool_input")) in
          act tool_name tool_input
              (yield (Event status (DStep (iteration + 1) tool_name)) st)
        else (st, Break)
      | None => (st, Break)
      end
  end.

(** [for iteration in range(self.max_iterations)], from [iteration]
    with [fuel] rounds left. *)
Fixpoint loop (question : str) (fuel iteration : nat) (st : state W)
  : state W :=
  match fuel with
  | O => st
  | S fuel' =>
    match iterate question iteration st with
    | (st', Break) => st'
    | (st', Continue) => loop question fuel' (S iteration) st'
    end
  end.

Definition initial (w : W) : state W :=
  mkState [Event status (DStr (py "🧠 Agent iniciando análise..."))]
          [] 0 [] w.

(** The state when the loop is left, before the final answer. *)
Definition plan_and_act (question : str) (w : W) : state W :=
  loop question max_iterations 0 (initial w).

(** [[r['tool'] for r in tool_results]]: [None] for the [KeyError]. *)
Definition tools_used (rs : list ToolResult) : option (list str) :=
  mapM tool_key rs.

Definition document_sources (rs : list ToolResult) : list source :=
  concat (omap (fun r =>
                  if bool_decide (tool_key r = Some (py "document_search"))
                  then result_sources r else None) rs).

(** [process_stream]: the events in order, and whether the generator
    ended by an exception. *)
Definition process_stream (question : str) (w : W) : state W * bool :=
  let st := plan_and_act question w in
  let st :=
    yield (Event status (DStr (py "📝 Sintetizando resposta..." ++ [NL])))
          st in
  let final_prompt :=
    match tool_results st with
    | [] => py "Responda:" ++ [NL; NL] ++ question
    | rs => _create_final_answer_prompt question rs
    end in
  let '(chunks, w') := generate_stream (world st) final_prompt in
  let st := mkState (events st ++ map (fun c => Event chunk (DStr c)) chunks)
                    (tool_results st) (planning_calls st) (tool_calls st)
                    w' in
  match tools_used (tool_results st) with
  | None => (st, true)
  | Some used =>
    let st :=
      yield (Event metadata_ev
                   (DAgentMeta used (length (tool_results st)))) st in
    match document_sources (tool_results st) with
    | [] => (st, false)
    | srcs => (yield (Event sources_ev (DSources srcs)) st, false)
    end
  end.
End Agent.
End AutonomousAgent.


(* ===================================================================== *)
(** ** Vocabulary of the specification *)
(* ===================================================================== *)





#[global] Instance event_type_eq_dec : EqDecision event_type.
Proof. solve_decision. Defined.

(** The number of events of one type in a stream. *)
Definition count_type (t : event_type) (evs : list event) : nat :=
  length (filter (fun e => type e = t) evs).

(** The first planning call answers with a plan that has a ['reasoning']
    key. *)
Definition first_plan_has_reasoning {W : Type} `{AgentWorld W}
    (question : str) (w : W) : bool :=
  match (generate w (_create_planning_prompt question None)).1 with
  | Some response =>
      PyDict.contains (AutonomousAgent._parse_json_response response)
                      (py "reasoning")
  | None => false
  end.

(** A planner that asks for the tool "foo" at every step, tools that
    always succeed, and a decoder that knows the planner's one answer. *)
Module UnknownToolScenario.

Definition quoted (s : string) : str := [34%N] ++ py s ++ [34%N].

Definition answer : str :=
  py "{" ++ quoted "needs_tool" ++ py ": true, " ++ quoted "is_complete"
  ++ py ": false, " ++ quoted "tool" ++ py ": " ++ quoted "foo" ++ py "}".

Definition plan : PyDict.dict json :=
  [(py "needs_tool", JBool true); (py "is_complete", JBool false);
   (py "tool", JStr (py "foo"))].

#[local] Instance llm : BaseLLM unit := {
  generate _ _ := (Some answer, tt);
  generate_stream _ _ := ([py "ok"], tt)
}.

#[local] Instance world : AgentWorld unit := {
  agent_llm := llm;
  loads s := if bool_decide (s = answer) then Some plan else None;
  execute _ _ _ := (Some (mkToolResult true (Some (py "calculator")) None), tt);
  _create_planning_prompt _ _ := py "plan";
  _create_final_answer_prompt _ _ := py "final"
}.

Definition question : str := py "quanto é 2 + 2?".

End UnknownToolScenario.

(** The lookup at the head of [query_stream] finds nothing (or there is no
    cache). *)
Definition cache_miss (cache : option CacheManager.t) (now : Z)
    (question : str) : Prop :=
  match cache with
  | None => True
  | Some c => (CacheManager.get_response_cache c now question).1 = None
  end.

(** The query variants [query_stream] searches with. *)
Definition queries_of {L : Type} `{BaseLLM L} (llm : L) (question : str)
    (use_expansion : bool) : list str :=
  if use_expansion
  then (AdvancedRetriever.query_expansion question llm).1
  else [question].

(** An empty corpus: the vector index returns nothing, the keyword index
    was never built, there is no reranking model, and the backend is never
    needed. *)
Module EmptyCorpusScenario.

#[local] Instance chroma : Chroma := {
  chroma_similarity_search_with_score _ _ := Some []
}.

#[local] Instance bm25 : BM25 := {
  bm25_built := false;
  documents := [];
  get_scores _ := [];
  argsort_reversed _ := []
}.

#[local] Instance cross_encoder : CrossEncoder := {
  reranker_available := false;
  predict _ _ := None
}.

#[local] Instance llm : BaseLLM unit := {
  generate _ _ := (None, tt);
  generate_stream _ _ := ([], tt)
}.

Definition cache : CacheManager.t :=
  CacheManager.mk ∅ (CacheManager.mkStats 0 0 0 0).

Definition question : str := py "anything".

End EmptyCorpusScenario.

(** The ranking of one result list on its own: its normalized scores,
    sorted as the fusion sorts. *)
Definition pure_ranking (results : list scored) : list scored :=
  sort_desc (AdvancedRetriever.normalize results).

Definition fingerprints (results : list scored) : list str :=
  map (fun r => fingerprint (fst r)) results.

(** The documents whose fingerprint is not in [seen], one per
    fingerprint, in order of first occurrence. *)
Fixpoint fresh (seen : list str) (docs : list Document) : list Document :=
  match docs with
  | [] => []
  | doc :: docs' =>
    if decide (fingerprint doc ∈ seen) then fresh seen docs'
    else doc :: fresh (seen ++ [fingerprint doc]) docs'
  end.

(** The keyword results that the vector search did not return. *)
Definition keyword_only (vector_results keyword_results : list scored)
  : list Document :=
  fresh (fingerprints vector_results) (map fst keyword_results).

(** The score that a result list gives to a fingerprint: that of its
    first result of this fingerprint, 0 when there is none. *)
Fixpoint score_of (results : list scored) (f : str) : Qc :=
  match results with
  | [] => 0
  | (doc, s) :: rest =>
    if decide (fingerprint doc = f) then s else score_of rest f
  end.

(** The fusion rule, result by result: the vector results in their order,
    each with the weighted sum of its two normalized scores, then the
    keyword results that the vector search did not return, weighted. *)
Definition merged (vector_results keyword_results : list scored)
    (vector_weight : Qc) : list scored :=
  let vector_norm := AdvancedRetriever.normalize vector_results in
  let keyword_norm := AdvancedRetriever.normalize keyword_results in
  map (fun r => (r.1, r.2 * vector_weight
                      + score_of keyword_norm (fingerprint r.1)
                        * (1 - vector_weight)))
      vector_norm
  ++ map (fun r => (r.1, r.2 * (1 - vector_weight)))
         (filter (fun r => fingerprint r.1 ∉ fingerprints vector_results)
                 keyword_norm).

(** The head of a list of scores is at most [q]. *)
Definition bounded_by (q : Qc) (l : list Qc) : Prop :=
  match l with [] => True | y :: _ => y <= q end.


(** The dict entry of a result, and what the two loops of the fusion
    write: the weighted entry of a new result, and the entry that exists
    with the weighted keyword score of its key added. *)
Definition entry_of (r : scored) : str * AdvancedRetriever.entry :=
  (fingerprint r.1, r).

Definition weighted (w : Qc) (r : scored) : str * AdvancedRetriever.entry :=
  (fingerprint r.1, (r.1, r.2 * w)).

Definition bump (kw : Qc) (results : list scored)
    (e : str * AdvancedRetriever.entry) : str * AdvancedRetriever.entry :=
  (e.1, (e.2.1, e.2.2 + score_of results e.1 * kw)).

(** Two documents of distinct fingerprints. *)
Definition scenario_c1 : Document := mkDocument (py "alpha") [].
Definition scenario_c2 : Document := mkDocument (py "beta") [].

(** Closed equations between rationals. *)
Ltac qc_compute := apply Qc_is_canon; vm_compute; reflexivity.

(** Evaluates the closed comparisons left in the goal. *)
Ltac eval_decide :=
  repeat match goal with
         | |- context [bool_decide ?P] =>
             let b := fresh "b" in
             set (b := bool_decide P); vm_compute in b; subst b; cbv iota
         end.

(* ===================================================================== *)
(** ** Further vocabulary *)
(* ===================================================================== *)

(** What the dicts of the fusion and of the deduplication keep: no key
    twice, and every entry under the fingerprint of its document. *)
Definition keyed_by_fingerprint (d : PyDict.dict scored) : Prop :=
  NoDup (PyDict.keys d) /\ Forall (fun e => e.1 = fingerprint e.2.1) d.

(** The similarity that [similarity_search_with_score] makes of a
    distance. *)
Definition similarity (distance : Qc) : Qc := 1 / (1 + Qcabs.Qcabs distance).

(** The rest of src/cache_manager.py that concerns the response cache. *)
Module CacheAdmin.
Import CacheManager.

(** [_init_stats], on the counters of [stats]. *)
Definition _init_stats : stats := mkStats 0 0 0 0.

(** [clear_cache(cache_type)] *)
Definition clear_cache (self : t) (cache_type : str) : t :=
  let cleared :=
    if bool_decide (cache_type ∈ [py "all"; py "responses"])
    then mk ∅ (stats_cache self) else self in
  if bool_decide (cache_type = py "all")
  then mk (response_cache cleared) _init_stats
  else cleared.

End CacheAdmin.


(** The text that a consumer of the stream assembles: the data of the
    chunk events, in order. *)
Definition chunk_texts (evs : list event) : list str :=
  omap (fun e => match type e, data e with
                 | chunk, DStr s => Some s
                 | _, _ => None
                 end) evs.

Definition answer_text (evs : list event) : str := concat (chunk_texts evs).

(** A corpus of one document, found by the vector search only, and a
    backend that streams a two-fragment answer. *)
Module AnsweredScenario.

Definition doc : Document :=
  mkDocument (py "RAG combina busca e geração.")
             [(py "source", py "intro.pdf")].

#[local] Instance chroma : Chroma := {
  chroma_similarity_search_with_score _ _ := Some [(doc, Q2Qc 0.25)]
}.

#[local] Instance llm : BaseLLM unit := {
  generate _ _ := (None, tt);
  generate_stream _ _ := ([py "RAG combina "; py "busca e geração."], tt)
}.

Definition question : str := py "O que é RAG?".

End AnsweredScenario.

(** A vector index that raises on every search. *)
Module BrokenIndexScenario.

#[local] Instance chroma : Chroma := {
  chroma_similarity_search_with_score _ _ := None
}.

End BrokenIndexScenario.

(** What the loop of [query_stream] over all results keeps in [seen]
    after the results [processed]: one entry per fingerprint met, each a
    processed result that no processed result of its fingerprint beats. *)
Definition best_seen (processed : list scored) (seen : PyDict.dict scored)
  : Prop :=
  keyed_by_fingerprint seen
  /\ Forall (fun e => e.2 ∈ processed
                      /\ forall r, r ∈ processed ->
                                   fingerprint r.1 = e.1 -> r.2 <= e.2.2)
            seen
  /\ (forall r, r ∈ processed -> fingerprint r.1 ∈ PyDict.keys seen).

#[global] Instance tool_eq_dec : EqDecision tool.
Proof. solve_decision. Defined.

(** The rest of src/agent_tools.py that needs no network. *)
Module AgentTool.

(** [tool.name], as each class passes it to [AgentTool.__init__]. *)
Definition name (t : tool) : str :=
  match t with
  | DocumentSearchTool => py "document_search"
  | CalculatorTool => py "calculator"
  | DateTimeTool => py "datetime"
  | KnowledgeTool => py "general_knowledge"
  | WebSearchTool => py "web_search"
  end.

(** [tool.description] *)
Definition description (t : tool) : str :=
  match t with
  | DocumentSearchTool =>
      py "Busca informações nos documentos/conhecimento base. Use para perguntas sobre o conteúdo dos documentos carregados."
  | CalculatorTool =>
      py "Realiza cálculos matemáticos. Use para operações como soma, subtração, multiplicação, divisão, percentuais, etc. Exemplo: '30 * 1500 / 100' para 30% de 1500."
  | DateTimeTool =>
      py "Retorna data e hora atuais. Use quando precisar saber que dia/hora é hoje."
  | KnowledgeTool =>
      py "Usa conhecimento geral do LLM. Use para perguntas gerais que NÃO estão nos documentos e NÃO são atuais (use web_search para info atual)."
  | WebSearchTool =>
      py "Busca informações na internet/web. Use quando a pergunta exige informações atuais, notícias, eventos recentes ou conhecimento que NÃO está nos documentos."
  end.

(** [ToolRegistry.list_tools]: name and description of every tool. *)
Definition list_tools : list (str * str) :=
  map (fun t => (name t, description t)) (PyDict.values ToolRegistry.tools).

(** [CalculatorTool.execute]. [eval] is Python's [eval] on text that
    passed the check ([None] when it raises). The result is the dict as
    the agent reads it, and its ['result'] entry when there is one. *)
Definition allowed : str := py "0123456789+-*/()., ".

Definition calculator_execute (eval : str -> option json) (expression : str)
  : ToolResult * option json :=
  if forallb (fun c => bool_decide (c ∈ allowed)) expression
  then match eval expression with
       | Some result =>
           (mkToolResult true (Some (py "calculator")) None, Some result)
       | None => (mkToolResult false (Some (py "calculator")) None, None)
       end
  else (mkToolResult false (Some (py "calculator")) None, None).





End AgentTool.

(** A planner whose answer has no JSON object in it. *)
Module GarbagePlanScenario.

#[local] Instance llm : BaseLLM unit := {
  generate _ _ := (Some (py "não sei responder em JSON"), tt);
  generate_stream _ _ := ([py "4"], tt)
}.

#[local] Instance world : AgentWorld unit := {
  agent_llm := llm;
  loads _ := None;
  execute _ _ _ := (Some (mkToolResult true (Some (py "calculator")) None), tt);
  _create_planning_prompt _ _ := py "plan";
  _create_final_answer_prompt _ _ := py "final"
}.

End GarbagePlanScenario.

(** The results that a run of the agent can hold: those that some call of
    a tool returned. *)
Definition returned_by_tool {W : Type} `{AgentWorld W} (r : ToolResult)
  : Prop :=
  exists w t arg w', execute w t arg = (Some r, w').

(** What the loop of the agent keeps: no more results than calls of a
    tool, no more calls than planning rounds, one [tool_result] event per
    result, no chunk, metadata or sources event yet, and only results
    that a tool returned. *)
Definition well_counted {W : Type} `{AgentWorld W}
    (st : AutonomousAgent.state W) : Prop :=
  (length (AutonomousAgent.tool_results st)
   <= length (AutonomousAgent.tool_calls st))%nat
  /\ (length (AutonomousAgent.tool_calls st)
      <= AutonomousAgent.planning_calls st)%nat
  /\ count_type tool_result (AutonomousAgent.events st)
     = length (AutonomousAgent.tool_results st)
  /\ count_type chunk (AutonomousAgent.events st) = 0%nat
  /\ count_type metadata_ev (AutonomousAgent.events st) = 0%nat
  /\ count_type sources_ev (AutonomousAgent.events st) = 0%nat
  /\ Forall returned_by_tool (AutonomousAgent.tool_results st).

Definition all_successful (rs : list ToolResult) : Prop :=
  Forall (fun r => success r = true) rs.

(** Only the last result may be a failure. *)
Definition failure_last (rs : list ToolResult) : Prop :=
  exists oks tail,
    rs = oks ++ tail /\ all_successful oks /\ (length tail <= 1)%nat.

(** The prompt of the final answer, as [process_stream] chooses it. *)
Definition final_prompt {W : Type} `{AgentWorld W} (question : str)
    (rs : list ToolResult) : str :=
  match rs with
  | [] => py "Responda:" ++ [NL; NL] ++ question
  | results => _create_final_answer_prompt question results
  end.

(** The status event that opens the final answer. *)
Definition synthesizing : event :=
  Event status (DStr (py "📝 Sintetizando resposta..." ++ [NL])).

(* ===================================================================== *)
(** * Properties *)
(* ===================================================================== *)

Import AdvancedRetriever.

(** ** The string and digest primitives on known values *)

Example sha256_abc :
  SHA256.hexdigest (encode (py "abc"))
  = py "ba7816bf8f01cfea414140de5dae2223b00361a396177a9cb410ff61f20015ad".
Proof. vm_compute. reflexivity. Qed.

Example sha256_empty :
  SHA256.hexdigest []
  = py "e3b0c44298fc1c149afbf4c8996fb92427ae41e4649b934ca495991b7852b855".
Proof. vm_compute. reflexivity. Qed.

Example sha256_round_constants :
  length SHA256.K = 64%nat
  /\ head SHA256.K = Some 0x428a2f98%N /\ last SHA256.K = Some 0xc67178f2%N.
Proof. vm_compute. repeat split. Qed.

Example py_literal_accents :
  py "Variação" = [86; 97; 114; 105; 97; 231; 227; 111]%N.
Proof. vm_compute. reflexivity. Qed.

(** ** Sorting *)

Section SortingFacts.
Context {A : Type}.
Implicit Types (x : A * Qc) (l : list (A * Qc)).

Lemma non_increasing_cons q (l : list Qc) :
  non_increasing (q :: l) <-> bounded_by q l /\ non_increasing l.
Proof. destruct l; simpl; tauto. Qed.

Lemma insert_desc_head x l q :
  x.2 <= q -> bounded_by q (map snd l) ->
  bounded_by q (map snd (insert_desc x l)).
Proof.
  destruct l as [|y l]; simpl; [tauto|].
  case_bool_decide; simpl; tauto.
Qed.

Lemma insert_desc_sorted x l :
  non_increasing (map snd l) -> non_increasing (map snd (insert_desc x l)).
Proof.
  induction l as [|y l IH]; intros Hl.
  - simpl. tauto.
  - cbn [insert_desc]. cbn [map] in Hl.
    apply non_increasing_cons in Hl as [Hb Hl].
    case_bool_decide as Hlt.
    + cbn [map]. apply non_increasing_cons. split.
      * apply insert_desc_head; [by apply Qclt_le_weak | done].
      * by apply IH.
    + cbn [map]. apply non_increasing_cons. split.
      * simpl. by apply Qcnot_lt_le.
      * apply non_increasing_cons. done.
Qed.

Lemma sort_desc_sorted l : non_increasing (map snd (sort_desc l)).
Proof.
  induction l as [|x l IH]; simpl; [done|].
  by apply insert_desc_sorted.
Qed.

Lemma non_increasing_take (k : nat) (l : list Qc) :
  non_increasing l -> non_increasing (take k l).
Proof.
  revert k. induction l as [|q l IH]; intros [|k] Hl; try done.
  cbn [take firstn]. apply non_increasing_cons in Hl as [Hb Hl].
  apply non_increasing_cons. split; [|by apply IH].
  destruct l, k; simpl in *; done.
Qed.

Lemma take_sorted (k : nat) l :
  non_increasing (map snd l) -> non_increasing (map snd (take k l)).
Proof. rewrite <- firstn_map. apply non_increasing_take. Qed.

(** Inserting in front of a tail that the new score dominates. *)
Lemma insert_desc_app x l tl :
  Forall (fun y => y.2 <= x.2) tl ->
  insert_desc x (l ++ tl) = insert_desc x l ++ tl.
Proof.
  intros Htl. induction l as [|y l IH]; simpl.
  - destruct Htl as [|y tl Hy Htl]; [done|]. simpl.
    rewrite bool_decide_eq_false_2; [done|]. by apply Qcle_not_lt.
  - case_bool_decide; [by rewrite IH | done].
Qed.

Lemma sort_desc_app_low l tl :
  Forall (fun x => Forall (fun y => y.2 <= x.2) tl) l ->
  sort_desc tl = tl ->
  sort_desc (l ++ tl) = sort_desc l ++ tl.
Proof.
  intros Hl Htl. induction Hl as [|x l Hx Hl IH]; simpl; [done|].
  rewrite IH. by apply insert_desc_app.
Qed.

Lemma insert_desc_perm x l : insert_desc x l ≡ₚ x :: l.
Proof.
  induction l as [|y l IH]; simpl; [done|].
  case_bool_decide; [|done]. rewrite IH. apply Permutation_swap.
Qed.

Lemma sort_desc_perm l : sort_desc l ≡ₚ l.
Proof.
  induction l as [|x l IH]; simpl; [done|].
  by rewrite insert_desc_perm, IH.
Qed.
End SortingFacts.

(** The scores of the positional fallback decrease with the position. *)
Lemma imap_sorted (g : nat -> Qc) (l : list Document) :
  (forall i, g (S i) <= g i) ->
  non_increasing (map snd (imap (fun i doc => (doc, g i)) l)).
Proof.
  revert g. induction l as [|d l IH]; intros g Hg; [done|].
  cbn [imap map]. apply non_increasing_cons. split.
  - destruct l; simpl; [done | apply Hg].
  - apply (IH (g ∘ S)). intros i. apply Hg.
Qed.

Lemma positional_sorted documents top_k :
  non_increasing (map snd (positional documents top_k)).
Proof.
  unfold positional. apply imap_sorted. intros i.
  apply Qcle_minus_iff.
  replace (1 - Q2Qc (inject_Z (Z.of_nat i)) * Q2Qc 0.1
           + - (1 - Q2Qc (inject_Z (Z.of_nat (S i))) * Q2Qc 0.1))
    with ((Q2Qc (inject_Z (Z.of_nat (S i))) - Q2Qc (inject_Z (Z.of_nat i)))
          * Q2Qc 0.1) by ring.
  replace (Q2Qc (inject_Z (Z.of_nat (S i))) - Q2Qc (inject_Z (Z.of_nat i)))
    with 1; [by vm_compute|].
  apply Qc_is_canon. unfold Qcminus, Qcplus, Qcopp, Q2Qc, this.
  rewrite !Qred_correct. unfold Qeq, inject_Z, Qplus, Qopp. simpl. lia.
Qed.

(** ** Ranked lists are sorted *)

Lemma combine_results_sorted vector_results keyword_results vector_weight
    filter_metadata :
  non_increasing
    (map snd (_combine_results vector_results keyword_results vector_weight
                               filter_metadata)).
Proof. unfold _combine_results. apply sort_desc_sorted. Qed.

Lemma rerank_results_sorted `{CrossEncoder} query docs top_k :
  non_increasing (map snd (rerank_results query docs top_k)).
Proof.
  unfold rerank_results.
  destruct reranker_available; simpl; [|apply positional_sorted].
  destruct (predict query docs) as [scores|]; [|apply positional_sorted].
  apply take_sorted, sort_desc_sorted.
Qed.

(** C6. Every scored list handed back to a caller is ordered by
    non-increasing score: the fused list of [_combine_results] and its
    truncation returned by [hybrid_search] (whenever the vector search
    returns), the list of [rerank_results] on the model path and on the
    positional fallback alike, and the final selection of [query_stream],
    with or without reranking. *)
Theorem returned_scores_non_increasing
    (C : Chroma) (B : BM25) (E : CrossEncoder) :
  (forall query k vector_weight filter_metadata,
      match hybrid_search query k vector_weight filter_metadata with
      | Some results => non_increasing (map snd results)
      | None => True
      end)
  /\ (forall query docs top_k,
         non_increasing (map snd (rerank_results query docs top_k))
         /\ non_increasing (map snd (positional docs top_k)))
  /\ (forall k_documents question use_rerank all_results,
         non_increasing
           (map snd (StreamingRAGSystem.final_selection k_documents question
                       use_rerank
                       (StreamingRAGSystem.top_results k_documents
                                                        all_results)))).
Proof.
  split; [|split].
  - intros query k vw f. unfold hybrid_search.
    destruct (VectorStoreManager.similarity_search_with_score query (k * 2))
      as [vector_results|]; simpl; [|done].
    apply take_sorted, combine_results_sorted.
  - intros. split; [apply rerank_results_sorted | apply positional_sorted].
  - intros k question use_rerank all_results.
    unfold StreamingRAGSystem.final_selection.
    destruct (StreamingRAGSystem.needs_rerank _ _ _).
    + apply rerank_results_sorted.
    + apply take_sorted. unfold StreamingRAGSystem.top_results.
      apply take_sorted, sort_desc_sorted.
Qed.

(** ** Scenario B of the fusion *)

Lemma normalize_pair (a b : Document) :
  normalize [(a, Q2Qc 0.9); (b, Q2Qc 0.2)] = [(a, 1); (b, 0)].
Proof.
  unfold normalize, py_max, py_min. cbn [map snd fold_left].
  eval_decide. cbn [map]. repeat f_equal; qc_compute.
Qed.

Lemma normalize_single (b : Document) (s : Qc) :
  normalize [(b, s)] = [(b, 0)].
Proof.
  unfold normalize, py_max, py_min. cbn [map snd fold_left].
  rewrite bool_decide_eq_false_2 by (intros Hne; by apply Hne).
  cbn [map]. repeat f_equal. unfold Qcminus. rewrite Qcplus_opp_r.
  qc_compute.
Qed.

(** C1, as the code has it. With [vectorWeight = 0.5], vector results
    [(c1, 0.9), (c2, 0.2)] and keyword results [(c2, 0.8)] of distinct
    fingerprints, each list is min-max normalized before it is weighted:
    c1 gets 0.5 * 1 and comes first, c2 gets 0.5 * 0 + 0.5 * 0 = 0 and
    comes second. *)
Theorem combine_scenario_b (c1 c2 : Document) :
  fingerprint c1 <> fingerprint c2 ->
  _combine_results [(c1, Q2Qc 0.9); (c2, Q2Qc 0.2)] [(c2, Q2Qc 0.8)]
                   (Q2Qc 0.5) None
  = [(c1, Q2Qc 0.5); (c2, 0)].
Proof.
  intros Hfp. unfold _combine_results.
  rewrite normalize_pair, normalize_single.
  cbn [fold_left add_vector add_keyword PyDict.set PyDict.get].
  destruct (decide (fingerprint c2 = fingerprint c1)) as [Heq|_];
    [by symmetry in Heq|].
  cbn [PyDict.set PyDict.get].
  destruct (decide (fingerprint c2 = fingerprint c1)) as [Heq|_];
    [by symmetry in Heq|].
  destruct (decide (fingerprint c2 = fingerprint c2)) as [_|Hne]; [|done].
  cbn [PyDict.values map snd].
  replace (1 * Q2Qc 0.5) with (Q2Qc 0.5) by qc_compute.
  replace (0 * Q2Qc 0.5 + 0 * (1 - Q2Qc 0.5)) with (Q2Qc 0) by qc_compute.
  unfold sort_desc. cbn [foldr insert_desc snd].
  eval_decide. done.
Qed.

Lemma combine_scenario_b_witness :
  fingerprint scenario_c1 <> fingerprint scenario_c2
  /\ _combine_results [(scenario_c1, Q2Qc 0.9); (scenario_c2, Q2Qc 0.2)]
                      [(scenario_c2, Q2Qc 0.8)] (Q2Qc 0.5) None
     = [(scenario_c1, Q2Qc 0.5); (scenario_c2, 0)].
Proof.
  assert (Hfp : fingerprint scenario_c1 <> fingerprint scenario_c2)
    by (vm_compute; discriminate).
  split; [exact Hfp | exact (combine_scenario_b scenario_c1 scenario_c2 Hfp)].
Defined.

(** The order and the scores that the scenario of the specification
    announces (c2 first with 0.5, c1 second with 0.45) are not the ones
    the fusion computes. *)
Lemma combine_scenario_b_as_specified_fails :
  _combine_results [(scenario_c1, Q2Qc 0.9); (scenario_c2, Q2Qc 0.2)]
                   [(scenario_c2, Q2Qc 0.8)] (Q2Qc 0.5) None
  <> [(scenario_c2, Q2Qc 0.5); (scenario_c1, Q2Qc 0.45)].
Proof.
  intros Heq.
  apply (f_equal (fun l => map (fun r => page_content (fst r)) l)) in Heq.
  vm_compute in Heq. discriminate.
Qed.

(** ** Query expansion *)

Section ExpansionFacts.
Variables (query : str) (lines : list str).



End ExpansionFacts.


(** ** The response cache *)

Import CacheManager.

Lemma diskcache_get_set {V : Type} (c : gmap str (V * option Z)) t now key v e :
  DiskCache.get (DiskCache.set c t key v (Some e)) now key
  = if bool_decide (now < t + seconds e)%Z then Some v else None.
Proof.
  unfold DiskCache.get, DiskCache.set. by rewrite lookup_insert_eq.
Qed.


(** ** The key of the response cache *)

Lemma is_space_lower c : is_space c = true -> lower_cp c = c.
Proof.
  unfold is_space, lower_cp. intros Hs.
  rewrite !orb_true_iff, !andb_true_iff, !N.leb_le, !N.eqb_eq in Hs.
  destruct ((65 <=? c)%N && (c <=? 90)%N) eqn:E1.
  { apply andb_true_iff in E1 as [?%N.leb_le ?%N.leb_le]. lia. }
  destruct ((192 <=? c)%N && (c <=? 222)%N && negb (c =? 215)%N) eqn:E2;
    [|done].
  apply andb_true_iff in E2 as [E2 _].
  apply andb_true_iff in E2 as [?%N.leb_le ?%N.leb_le]. lia.
Qed.












(** ** The agent loop *)

Import AutonomousAgent.

Lemma count_type_app t evs evs' :
  count_type t (evs ++ evs') = (count_type t evs + count_type t evs')%nat.
Proof. unfold count_type. by rewrite filter_app, length_app. Qed.

Lemma count_type_chunks t (chunks : list str) :
  t <> chunk -> count_type t (map (fun c => Event chunk (DStr c)) chunks) = 0%nat.
Proof.
  intros Ht. induction chunks as [|c chunks IH]; [done|].
  unfold count_type in *. simpl. rewrite filter_cons_False; [done|].
  simpl. congruence.
Qed.

Section AgentFacts.
Context {W : Type} `{AgentWorld W}.
Implicit Types (st : state W).

Lemma count_type_yield t e st :
  count_type t (events (yield e st))
  = (count_type t (events st) + (if decide (type e = t) then 1 else 0))%nat.
Proof.
  unfold yield. cbn [events]. rewrite count_type_app. f_equal.
  unfold count_type. case_decide.
  - by rewrite filter_cons_True.
  - by rewrite filter_cons_False.
Qed.

(** What calling the tool changes: at most one more call, nothing else. *)
Lemma run_tool_frame t tool_name tool_input st :
  let st' := (run_tool t tool_name tool_input st).2 in
  events st' = events st
  /\ tool_results st' = tool_results st
  /\ planning_calls st' = planning_calls st
  /\ (length (tool_calls st') <= S (length (tool_calls st)))%nat.
Proof.
  unfold run_tool.
  repeat (destruct (is_name tool_name _));
    try (destruct (execute (world st) t _) as [r w]; simpl;
         rewrite ?length_app; simpl; repeat split; lia);
    simpl; repeat split; lia.
Qed.

Lemma act_frame tool_name tool_input st :
  let st' := (act tool_name tool_input st).1 in
  count_type reasoning (events st') = count_type reasoning (events st)
  /\ planning_calls st' = planning_calls st
  /\ (length (tool_calls st') <= S (length (tool_calls st)))%nat.
Proof.
  unfold act.
  destruct (ToolRegistry.get_tool tool_name) as [[t|]|]; simpl;
    try (repeat split; lia).
  pose proof (run_tool_frame t tool_name tool_input st) as Hrun.
  destruct (run_tool t tool_name tool_input st) as [[result|] st'];
    simpl in Hrun; destruct Hrun as (Hev & _ & Hpl & Hcalls).
  - destruct (success result); cbn [fst yield events planning_calls tool_calls];
      rewrite count_type_app, Hev; (split; [|done]);
      unfold count_type at 2; simpl; lia.
  - cbn [fst]. by rewrite Hev.
Qed.

(** An unregistered name that can be hashed leaves the state as it is
    and lets the loop go on. *)
Lemma act_unregistered tool_name tool_input st :
  ToolRegistry.get_tool tool_name = Some None ->
  act tool_name tool_input st = (st, Continue).
Proof. intros Hget. unfold act. by rewrite Hget. Qed.

(** For a registered tool the chain of comparisons always reaches a
    call: its last branch, which builds the failed result, is dead. *)
Lemma run_tool_registered t tool_name tool_input st :
  ToolRegistry.get_tool tool_name = Some (Some t) ->
  exists arg, tool_calls (run_tool t tool_name tool_input st).2
              = tool_calls st ++ [(t, arg)].
Proof.
  destruct tool_name as [| | |s| |]; try discriminate. simpl.
  unfold ToolRegistry.tools, PyDict.get. intros Hget.
  repeat case_decide; try discriminate; subst s; unfold run_tool;
    match goal with
    | |- context [execute ?w ?t ?a] =>
        exists a; vm_compute is_name; cbv iota;
        destruct (execute w t a); done
    end.
Qed.

Lemma iterate_frame question iteration st :
  let st' := (iterate question iteration st).1 in
  planning_calls st' = S (planning_calls st)
  /\ (length (tool_calls st') <= S (length (tool_calls st)))%nat
  /\ count_type reasoning (events st')
     = (count_type reasoning (events st)
        + match iteration, (generate (world st)
                              (_create_planning_prompt question
                                 (match tool_results st with
                                  | [] => None | rs => Some rs end))).1 with
          | O, Some response =>
              if PyDict.contains (_parse_json_response response)
                                 (py "reasoning") then 1 else 0
          | _, _ => 0
          end)%nat.
Proof.
  unfold iterate.
  destruct (generate (world st) _) as [[response|] w]; simpl;
    [|destruct iteration; repeat split; lia].
  set (plan := _parse_json_response response).
  set (st1 := mkState (events st) (tool_results st) (S (planning_calls st))
                      (tool_calls st) w).
  set (st2 := match PyDict.get plan (py "reasoning") with
              | Some r => if bool_decide (iteration = 0%nat)
                          then yield (Event reasoning (DFormat (py "💭 ") r)) st1
                          else st1
              | None => st1
              end).
  assert (Hst2 : planning_calls st2 = S (planning_calls st)
                 /\ tool_calls st2 = tool_calls st
                 /\ count_type reasoning (events st2)
                    = (count_type reasoning (events st)
                       + match iteration with
                         | O => if PyDict.contains plan (py "reasoning")
                                then 1 else 0
                         | S _ => 0
                         end)%nat).
  { subst st2. unfold PyDict.contains.
    destruct (PyDict.get plan (py "reasoning")) as [r|];
      [|destruct iteration; simpl; repeat split; lia].
    destruct iteration as [|i]; simpl.
    - rewrite count_type_app. done.
    - repeat split; lia. }
  clearbody st2. destruct Hst2 as (Hpl & Hcalls & Hcount).
  destruct (flag plan (py "is_complete") || negb (flag plan (py "needs_tool")));
    simpl; [rewrite Hcalls; repeat split; try done; lia|].
  destruct (PyDict.get plan (py "tool")) as [tool_name|]; simpl;
    [|rewrite Hcalls; repeat split; try done; lia].
  destruct (truthy tool_name); simpl;
    [|rewrite Hcalls; repeat split; try done; lia].
  match goal with
  | |- context [act ?n ?i ?s] =>
      pose proof (act_frame n i s) as (Hev' & Hpl' & Hcalls')
  end.
  rewrite count_type_yield in Hev'. simpl in Hev', Hpl', Hcalls'.
  rewrite Hpl', Hpl. rewrite Hcalls in Hcalls'.
  repeat split; try done. rewrite Hev', Hcount. lia.
Qed.

Lemma loop_calls question fuel iteration st :
  (length (tool_calls (loop question fuel iteration st))
   <= length (tool_calls st) + fuel)%nat
  /\ (planning_calls (loop question fuel iteration st)
      <= planning_calls st + fuel)%nat.
Proof.
  revert iteration st. induction fuel as [|fuel IH]; intros i st; simpl;
    [lia|].
  pose proof (iterate_frame question i st) as (Hpl & Hcalls & _).
  destruct (iterate question i st) as [st' [|]]; simpl in *.
  - specialize (IH (S i) st'). lia.
  - lia.
Qed.

Lemma loop_later_reasoning question fuel iteration st :
  count_type reasoning (events (loop question fuel (S iteration) st))
  = count_type reasoning (events st).
Proof.
  revert iteration st. induction fuel as [|fuel IH]; intros i st; simpl;
    [done|].
  pose proof (iterate_frame question (S i) st) as (_ & _ & Hcount).
  destruct (iterate question (S i) st) as [st' [|]]; simpl in *.
  - rewrite IH. lia.
  - lia.
Qed.

Lemma loop_unfold question fuel iteration st :
  loop question (S fuel) iteration st
  = match iterate question iteration st with
    | (st', Break) => st'
    | (st', Continue) => loop question fuel (S iteration) st'
    end.
Proof. reflexivity. Qed.

Lemma plan_and_act_reasoning question w :
  count_type reasoning (events (plan_and_act question w))
  = if first_plan_has_reasoning question w then 1%nat else 0%nat.
Proof.
  unfold plan_and_act, max_iterations, first_plan_has_reasoning.
  rewrite loop_unfold.
  pose proof (iterate_frame question 0 (initial w)) as (_ & _ & Hcount).
  cbn [initial world tool_results events] in Hcount.
  destruct (iterate question 0 (initial w)) as [st' [|]]; simpl in Hcount.
  - rewrite loop_later_reasoning, Hcount.
    destruct (generate w _) as [[response|] w']; simpl; [|done].
    by destruct (PyDict.contains _ _).
  - rewrite Hcount.
    destruct (generate w _) as [[response|] w']; simpl; [|done].
    by destruct (PyDict.contains _ _).
Qed.

(** The part of [process_stream] after the loop adds no call and no
    reasoning event. *)
Lemma process_stream_frame question w :
  let st := (process_stream question w).1 in
  tool_calls st = tool_calls (plan_and_act question w)
  /\ planning_calls st = planning_calls (plan_and_act question w)
  /\ count_type reasoning (events st)
     = count_type reasoning (events (plan_and_act question w)).
Proof.
  unfold process_stream.
  set (st0 := plan_and_act question w).
  destruct (generate_stream _ _) as [chunks w'].
  cbn [tool_results tool_calls planning_calls world].
  assert (Hcount : forall e st, type e <> reasoning ->
            count_type reasoning (events (yield e st))
            = count_type reasoning (events st)).
  { intros e st He. rewrite count_type_yield, decide_False by done. lia. }
  destruct (tools_used _) as [used|];
    [destruct (document_sources _)|];
    cbn [fst yield tool_results tool_calls planning_calls];
    (split; [done|]); (split; [done|]);
    rewrite ?Hcount by done; cbn [events];
    rewrite count_type_app, count_type_chunks by done;
    fold (events (yield (Event status
                           (DStr (py "📝 Sintetizando resposta..." ++ [NL])))
                        st0));
    rewrite Hcount by done; lia.
Qed.
End AgentFacts.

(** C3. Whatever the backend answers and whatever the tools do,
    [process_stream] calls a tool at most [max_iterations] = 3 times (and
    asks the planner at most 3 times) before the final answer. *)
Theorem process_stream_bounded {W : Type} `{AgentWorld W} (question : str)
    (w : W) :
  max_iterations = 3%nat
  /\ (length (tool_calls (process_stream question w).1) <= max_iterations)%nat
  /\ (planning_calls (process_stream question w).1 <= max_iterations)%nat
  /\ (length (tool_calls (plan_and_act question w)) <= max_iterations)%nat.
Proof.
  pose proof (process_stream_frame question w) as (Hcalls & Hpl & _).
  cbv zeta in Hcalls, Hpl. rewrite Hcalls, Hpl.
  pose proof (loop_calls question max_iterations 0 (initial w)) as [H1 H2].
  unfold plan_and_act. simpl in *. repeat split; try done; lia.
Qed.

(** C10. A run of [process_stream] yields at most one reasoning event:
    exactly one when the first plan has a ['reasoning'] key, none
    otherwise; no iteration after the first adds a reasoning event,
    whatever its plan contains. *)
Theorem reasoning_only_in_first_iteration {W : Type} `{AgentWorld W}
    (question : str) (w : W) :
  (count_type reasoning (events (process_stream question w).1) <= 1)%nat
  /\ count_type reasoning (events (process_stream question w).1)
     = (if first_plan_has_reasoning question w then 1%nat else 0%nat)
  /\ (forall fuel iteration st,
         count_type reasoning (events (loop question fuel (S iteration) st))
         = count_type reasoning (events st))
  /\ (forall iteration st,
         count_type reasoning (events (iterate question (S iteration) st).1)
         = count_type reasoning (events st)).
Proof.
  pose proof (process_stream_frame question w) as (_ & _ & Hcount).
  cbv zeta in Hcount. rewrite Hcount, plan_and_act_reasoning.
  split; [by destruct (first_plan_has_reasoning _ _); lia|].
  split; [done|]. split.
  - intros. apply loop_later_reasoning.
  - intros i st.
    pose proof (iterate_frame question (S i) st) as (_ & _ & Hc).
    simpl in Hc. lia.
Qed.

(** C2, at a planner that names the unregistered tool "foo". The lookup
    gives Python's [None], the [if tool:] block is skipped and nothing
    else happens in that iteration: no result is recorded, the loop is
    not left, and the planner is asked again until the three rounds are
    used up. *)
Theorem unknown_tool_is_retried :
  let foo := JStr (py "foo") in
  let st := plan_and_act (H := UnknownToolScenario.world)
                         UnknownToolScenario.question tt in
  ToolRegistry.get_tool foo = Some None
  /\ tool_results st = []
  /\ tool_calls st = []
  /\ planning_calls st = 3%nat
  /\ events st
     = [Event status (DStr (py "🧠 Agent iniciando análise..."));
        Event status (DStep 1 foo);
        Event status (DStep 2 foo);
        Event status (DStep 3 foo)].
Proof. vm_compute. repeat split. Qed.

(** ** The zero-result case of the stream *)

Section StreamFacts.
Context {L : Type} `{BaseLLM L} `{Chroma} `{BM25} `{CrossEncoder}.
Variable k_documents : nat.

Lemma get_response_cache_store (c : CacheManager.t) now question :
  response_cache (get_response_cache c now question).2 = response_cache c.
Proof.
  unfold get_response_cache.
  destruct (DiskCache.get _ _ _) as [cached|]; [|done].
  by case_bool_decide.
Qed.

Lemma answer_stream_no_documents cache (llm : L) now_write question
    use_hybrid use_rerank use_expansion all_results :
  StreamingRAGSystem.search_all k_documents use_hybrid
    (queries_of llm question use_expansion) = Some all_results ->
  StreamingRAGSystem.final_selection k_documents question use_rerank
    (StreamingRAGSystem.top_results k_documents all_results) = [] ->
  let r := StreamingRAGSystem.answer_stream k_documents cache llm now_write
             question use_hybrid use_rerank use_expansion in
  StreamingRAGSystem.raised r = false
  /\ (exists pre,
         StreamingRAGSystem.events r
         = pre ++ [Event chunk (DStr StreamingRAGSystem.no_documents)]
         /\ Forall (fun e => type e = status) pre)
  /\ StreamingRAGSystem.synthesis_prompts r = []
  /\ StreamingRAGSystem.cache_after r = cache.
Proof.
  intros Hsearch Hfinal. unfold StreamingRAGSystem.answer_stream.
  unfold queries_of in Hsearch.
  assert (Hpre : forall pre flag,
            Forall (fun e => type e = status) pre ->
            Forall (fun e => type e = status)
                   (if flag : bool
                    then pre ++ [Event status (DStr (py "🎯 Reranking..."))]
                    else pre)).
  { intros pre [] Hpre; [|done]. apply Forall_app. split; [done|].
    by constructor. }
  destruct use_expansion.
  - destruct (query_expansion question llm) as [qs llm'].
    cbn [fst] in Hsearch. rewrite Hsearch, Hfinal.
    cbn [map StreamingRAGSystem.raised StreamingRAGSystem.events
         StreamingRAGSystem.synthesis_prompts StreamingRAGSystem.cache_after].
    repeat split; try done.
    eexists. split; [reflexivity|]. apply Hpre.
    by repeat constructor.
  - rewrite Hsearch, Hfinal.
    cbn [map StreamingRAGSystem.raised StreamingRAGSystem.events
         StreamingRAGSystem.synthesis_prompts StreamingRAGSystem.cache_after].
    repeat split; try done.
    eexists. split; [reflexivity|]. apply Hpre.
    by repeat constructor.
Qed.
End StreamFacts.

(** C8. On a cache miss, when the searches return and the final selection
    is empty, the stream consists of status events followed by one chunk
    event that carries the fixed message, and ends there without an
    exception: there is no sources (or metadata) event, nothing is sent
    to the backend for synthesis, and the entries of the response cache
    are the ones it had before. *)
Theorem no_documents_stream {L : Type} `{BaseLLM L} `{Chroma} `{BM25}
    `{CrossEncoder} (k_documents : nat) (cache : option CacheManager.t)
    (llm : L) (now now_write : Z) (question : str)
    (use_hybrid use_rerank use_expansion : bool) (all_results : list scored) :
  cache_miss cache now question ->
  StreamingRAGSystem.search_all k_documents use_hybrid
    (queries_of llm question use_expansion) = Some all_results ->
  StreamingRAGSystem.final_selection k_documents question use_rerank
    (StreamingRAGSystem.top_results k_documents all_results) = [] ->
  let r := StreamingRAGSystem.query_stream k_documents cache llm now now_write
             question use_hybrid use_rerank use_expansion in
  StreamingRAGSystem.raised r = false
  /\ (exists pre,
         StreamingRAGSystem.events r
         = pre ++ [Event chunk (DStr StreamingRAGSystem.no_documents)]
         /\ Forall (fun e => type e = status) pre)
  /\ count_type chunk (StreamingRAGSystem.events r) = 1%nat
  /\ count_type sources_ev (StreamingRAGSystem.events r) = 0%nat
  /\ count_type metadata_ev (StreamingRAGSystem.events r) = 0%nat
  /\ StreamingRAGSystem.synthesis_prompts r = []
  /\ (response_cache <$> StreamingRAGSystem.cache_after r)
     = (response_cache <$> cache).
Proof.
  intros Hmiss Hsearch Hfinal r.
  assert (Hr : exists cache',
             r = StreamingRAGSystem.answer_stream k_documents cache' llm
                   now_write question use_hybrid use_rerank use_expansion
             /\ (response_cache <$> cache') = (response_cache <$> cache)).
  { subst r. unfold StreamingRAGSystem.query_stream.
    destruct cache as [c|]; [|by exists None].
    simpl in Hmiss.
    pose proof (get_response_cache_store c now question) as Hstore.
    destruct (get_response_cache c now question) as [[cached|] c'];
      [discriminate|].
    exists (Some c'). split; [done|]. simpl in *. by rewrite Hstore. }
  destruct Hr as (cache' & -> & Hcache).
  destruct (answer_stream_no_documents k_documents cache' llm now_write
              question use_hybrid use_rerank use_expansion all_results
              Hsearch Hfinal) as (Hraised & (pre & Hev & Hpre) & Hsyn & Hafter).
  assert (Hnone : forall t, t <> status -> count_type t pre = 0%nat).
  { intros t Ht. clear Hev. induction Hpre as [|e pre He Hpre IH]; [done|].
    unfold count_type in *. rewrite filter_cons_False; [done|]. congruence. }
  split; [done|]. split; [by exists pre|].
  rewrite Hev, !count_type_app, !Hnone by done.
  repeat split; try done. by rewrite Hafter.
Qed.

Lemma no_documents_stream_witness :
  let r := StreamingRAGSystem.query_stream
             (H := EmptyCorpusScenario.llm) (H0 := EmptyCorpusScenario.chroma)
             (H1 := EmptyCorpusScenario.bm25)
             (H2 := EmptyCorpusScenario.cross_encoder)
             5 (Some EmptyCorpusScenario.cache) tt 0 0
             EmptyCorpusScenario.question true true false in
  StreamingRAGSystem.raised r = false
  /\ (exists pre,
         StreamingRAGSystem.events r
         = pre ++ [Event chunk (DStr StreamingRAGSystem.no_documents)]
         /\ Forall (fun e => type e = status) pre)
  /\ count_type chunk (StreamingRAGSystem.events r) = 1%nat
  /\ count_type sources_ev (StreamingRAGSystem.events r) = 0%nat
  /\ count_type metadata_ev (StreamingRAGSystem.events r) = 0%nat
  /\ StreamingRAGSystem.synthesis_prompts r = []
  /\ (response_cache <$> StreamingRAGSystem.cache_after r)
     = (response_cache <$> Some EmptyCorpusScenario.cache).
Proof.
  apply (no_documents_stream (H := EmptyCorpusScenario.llm)
           (H0 := EmptyCorpusScenario.chroma) (H1 := EmptyCorpusScenario.bm25)
           (H2 := EmptyCorpusScenario.cross_encoder)
           5 (Some EmptyCorpusScenario.cache) tt 0 0
           EmptyCorpusScenario.question true true false []).
  - reflexivity.
  - reflexivity.
  - reflexivity.
Defined.

(** ** Fusion at the extreme weights *)

Section DictFacts.
Context {V : Type}.
Implicit Types (d : PyDict.dict V) (k : str) (v : V).

Lemma dict_get_None d k : PyDict.get d k = None <-> k ∉ PyDict.keys d.
Proof.
  induction d as [|[k' v'] d IH]; simpl.
  - split; [intros _; apply not_elem_of_nil | done].
  - case_decide as Hk.
    + subst. split; [done|]. intros Hn. exfalso. apply Hn. by left.
    + rewrite IH. rewrite not_elem_of_cons. tauto.
Qed.

Lemma dict_set_fresh d k v :
  k ∉ PyDict.keys d -> PyDict.set k v d = d ++ [(k, v)].
Proof.
  induction d as [|[k' v'] d IH]; simpl; [done|].
  rewrite not_elem_of_cons. intros [Hne Hk].
  rewrite decide_False by done. by rewrite IH.
Qed.

Lemma dict_set_same d k v : PyDict.get d k = Some v -> PyDict.set k v d = d.
Proof.
  induction d as [|[k' v'] d IH]; simpl; [done|].
  case_decide as Hk; [by intros [= ->]; subst|].
  intros Hget. by rewrite IH.
Qed.

Lemma dict_set_keys d k v :
  k ∈ PyDict.keys d -> PyDict.keys (PyDict.set k v d) = PyDict.keys d.
Proof.
  induction d as [|[k' v'] d IH]; simpl; [by intros ?%elem_of_nil|].
  case_decide as Hk; [by subst|].
  intros [?|Hin]%elem_of_cons; [done|]. simpl. by rewrite IH.
Qed.

Lemma dict_keys_app d d' : PyDict.keys (d ++ d') = PyDict.keys d ++ PyDict.keys d'.
Proof. unfold PyDict.keys. apply map_app. Qed.
End DictFacts.

Lemma py_min_le (l : list Qc) (m : Qc) :
  py_min m l <= m /\ Forall (fun s => py_min m l <= s) l.
Proof.
  revert m. induction l as [|s l IH]; intros m; simpl.
  - split; [apply Qcle_refl | constructor].
  - unfold py_min in *. simpl.
    destruct (IH (if bool_decide (s < m) then s else m)) as [Hm Hl].
    case_bool_decide as Hlt.
    + split; [|constructor; done].
      eapply Qcle_trans; [exact Hm | by apply Qclt_le_weak].
    + split; [done|]. constructor; [|done].
      eapply Qcle_trans; [exact Hm | by apply Qcnot_lt_le].
Qed.

Lemma py_max_ge (l : list Qc) (m : Qc) : m <= py_max m l.
Proof.
  revert m. induction l as [|s l IH]; intros m; simpl.
  - apply Qcle_refl.
  - unfold py_max in *. simpl. case_bool_decide as Hlt.
    + eapply Qcle_trans; [by apply Qclt_le_weak | apply IH].
    + apply IH.
Qed.

Lemma normalize_docs results : map fst (normalize results) = map fst results.
Proof.
  unfold normalize. destruct (map snd results) eqn:E.
  - by destruct results.
  - rewrite map_map. apply map_ext. by intros [doc s].
Qed.

Lemma normalize_fingerprints results :
  fingerprints (normalize results) = fingerprints results.
Proof.
  unfold fingerprints. rewrite <- !(map_map fst fingerprint).
  by rewrite normalize_docs.
Qed.

Lemma normalize_nonneg results :
  Forall (fun r => 0 <= r.2) (normalize results).
Proof.
  unfold normalize. destruct (map snd results) as [|s0 scores] eqn:E;
    [constructor|].
  destruct (py_min_le scores s0) as [Hmin0 Hmin].
  pose proof (py_max_ge scores s0) as Hmax.
  set (lo := py_min s0 scores) in *. set (hi := py_max s0 scores) in *.
  set (range := if bool_decide (hi <> lo) then hi - lo else 1).
  assert (Hrange : 0 < range).
  { subst range. case_bool_decide as Hne; [|done].
    assert (Hle : lo <= hi) by (eapply Qcle_trans; eauto).
    apply Qcle_lt_or_eq in Hle as [Hlt|Heq]; [|by subst].
    unfold Qcminus. by apply Qclt_minus_iff in Hlt. }
  assert (Hall : Forall (fun s => lo <= s) (map snd results))
    by (rewrite E; by constructor).
  clear E. induction results as [|[doc s] results IH]; [constructor|].
  simpl in Hall. apply Forall_cons in Hall as [Hs Hall].
  simpl. constructor; [|by apply IH].
  simpl. unfold Qcdiv.
  replace 0 with (0 * / range) by ring.
  apply Qcmult_le_compat_r.
  - unfold Qcminus. by apply Qcle_minus_iff in Hs.
  - apply Qclt_le_weak. by apply Qcinv_pos.
Qed.

Section FusionFacts.
Implicit Types (d : PyDict.dict entry) (results : list scored).

(** With distinct fingerprints the first loop writes one entry per
    result, in order. *)
Lemma fold_add_vector_one results d :
  NoDup (PyDict.keys d ++ fingerprints results) ->
  fold_left (add_vector 1) results d = d ++ map entry_of results.
Proof.
  revert d. induction results as [|[doc s] results IH]; intros d Hnd; simpl.
  - by rewrite app_nil_r.
  - rewrite Qcmult_1_r.
    assert (Hfresh : fingerprint doc ∉ PyDict.keys d).
    { apply NoDup_app in Hnd as (_ & Hd & _). intros Hin.
      apply (Hd _ Hin). by left. }
    rewrite dict_set_fresh by done. rewrite IH.
    + by rewrite <- app_assoc.
    + rewrite dict_keys_app. simpl. rewrite <- app_assoc. done.
Qed.

(** With weight [1 - 0] on an initially empty dict the second loop does
    the same. *)
Lemma fold_add_keyword_one results d :
  NoDup (PyDict.keys d ++ fingerprints results) ->
  fold_left (add_keyword (1 - 0)) results d = d ++ map entry_of results.
Proof.
  revert d. induction results as [|[doc s] results IH]; intros d Hnd; simpl.
  - by rewrite app_nil_r.
  - assert (Hfresh : fingerprint doc ∉ PyDict.keys d).
    { apply NoDup_app in Hnd as (_ & Hd & _). intros Hin.
      apply (Hd _ Hin). by left. }
    pose proof Hfresh as Hget. apply dict_get_None in Hget. rewrite Hget.
    replace (s * (1 - 0)) with s by ring.
    rewrite dict_set_fresh by done. rewrite IH.
    + by rewrite <- app_assoc.
    + rewrite dict_keys_app. simpl. rewrite <- app_assoc. done.
Qed.

(** With weight [1 - 1] the second loop leaves the entries that exist as
    they are and appends the other documents with score 0. *)
Lemma fold_add_keyword_zero results d :
  fold_left (add_keyword (1 - 1)) results d
  = d ++ map (fun doc => entry_of (doc, 0))
             (fresh (PyDict.keys d) (map fst results)).
Proof.
  revert d. induction results as [|[doc s] results IH]; intros d; simpl.
  - by rewrite app_nil_r.
  - destruct (PyDict.get d (fingerprint doc)) as [[doc0 s0]|] eqn:Hget.
    + replace (s0 + s * (1 - 1)) with s0 by ring.
      rewrite dict_set_same by done. rewrite IH.
      rewrite decide_True; [done|].
      destruct (decide (fingerprint doc ∈ PyDict.keys d)) as [|Hn]; [done|].
      apply dict_get_None in Hn. congruence.
    + pose proof Hget as Hfresh. apply dict_get_None in Hfresh.
      rewrite decide_False by done.
      replace (s * (1 - 1)) with 0 by ring.
      rewrite dict_set_fresh by done. rewrite IH.
      rewrite dict_keys_app. simpl. by rewrite <- app_assoc.
Qed.

Lemma values_entries results :
  PyDict.values (map entry_of results) = results.
Proof.
  unfold PyDict.values. rewrite map_map. simpl. apply map_id.
Qed.

Lemma keys_entries results :
  PyDict.keys (map entry_of results) = fingerprints results.
Proof. unfold PyDict.keys, fingerprints. by rewrite map_map. Qed.

Lemma sort_desc_zeros (docs : list Document) :
  sort_desc (map (fun doc => (doc, 0)) docs) = map (fun doc => (doc, 0)) docs.
Proof.
  induction docs as [|doc docs IH]; [done|].
  cbn [map]. unfold sort_desc in *. cbn [foldr]. rewrite IH.
  destruct docs; [done|]. cbn [map insert_desc snd].
  rewrite bool_decide_eq_false_2; [done|]. apply Qcle_not_lt, Qcle_refl.
Qed.
End FusionFacts.

Section MergeFacts.
Variable kw : Qc.
Implicit Types (d : PyDict.dict entry) (results : list scored).

Lemma score_of_absent results f :
  f ∉ fingerprints results -> score_of results f = 0.
Proof.
  induction results as [|[doc s] results IH]; simpl; [done|].
  rewrite not_elem_of_cons. intros [Hne Hf].
  rewrite decide_False by done. by apply IH.
Qed.

Lemma bump_nil d : map (bump kw []) d = d.
Proof.
  induction d as [|[f [doc s]] d IH]; simpl; [done|].
  rewrite IH. unfold bump. simpl. do 3 f_equal. ring.
Qed.

Lemma bump_other r results d :
  fingerprint r.1 ∉ PyDict.keys d ->
  map (bump kw (r :: results)) d = map (bump kw results) d.
Proof.
  destruct r as [docK sK].
  induction d as [|[f [doc s]] d IH]; simpl; [done|].
  rewrite not_elem_of_cons. intros [Hne Hd].
  rewrite IH by done. unfold bump at 1 3. simpl.
  by rewrite decide_False.
Qed.

Lemma bump_set docK sK results d doc0 s0 :
  NoDup (PyDict.keys d) ->
  fingerprint docK ∉ fingerprints results ->
  PyDict.get d (fingerprint docK) = Some (doc0, s0) ->
  map (bump kw results) (PyDict.set (fingerprint docK) (doc0, s0 + sK * kw) d)
  = map (bump kw ((docK, sK) :: results)) d.
Proof.
  intros Hnd Hfresh.
  induction d as [|[f [doc s]] d IH]; simpl; [done|].
  apply NoDup_cons in Hnd as [Hf Hnd].
  case_decide as Hk.
  - intros [= -> ->]. subst f. simpl.
    rewrite (bump_other (docK, sK)) by done.
    unfold bump at 1 3. simpl. rewrite decide_True by done.
    rewrite score_of_absent by done. do 3 f_equal. ring.
  - intros Hget. simpl. rewrite IH by done.
    unfold bump at 1 3. simpl. rewrite decide_False by done. done.
Qed.

Lemma filter_fresh_key results (ks : list str) f :
  f ∉ fingerprints results ->
  filter (fun r => fingerprint r.1 ∉ ks ++ [f]) results
  = filter (fun r => fingerprint r.1 ∉ ks) results.
Proof.
  induction results as [|r results IH]; simpl; [done|].
  rewrite not_elem_of_cons. intros [Hne Hf].
  specialize (IH Hf). rewrite !filter_cons.
  destruct (decide (fingerprint r.1 ∉ ks ++ [f])) as [Hn|Hn];
    destruct (decide (fingerprint r.1 ∉ ks)) as [Hm|Hm].
  - f_equal. exact IH.
  - exfalso. apply Hm. intros Hin. apply Hn, elem_of_app. by left.
  - exfalso. apply Hn. intros Hin. apply elem_of_app in Hin as [Hin|Hin];
      [done|]. apply list_elem_of_singleton in Hin. congruence.
  - exact IH.
Qed.

(** The second loop, for any weight, on keyword results of distinct
    fingerprints. *)
Lemma fold_add_keyword results d :
  NoDup (PyDict.keys d) -> NoDup (fingerprints results) ->
  fold_left (add_keyword kw) results d
  = map (bump kw results) d
    ++ map (weighted kw)
           (filter (fun r => fingerprint r.1 ∉ PyDict.keys d) results).
Proof.
  revert d. induction results as [|[docK sK] results IH]; intros d Hd Hnd.
  - simpl. by rewrite bump_nil, app_nil_r.
  - cbn [fold_left add_keyword]. cbn [fingerprints map fst] in Hnd.
    apply NoDup_cons in Hnd as [Hfresh Hnd].
    destruct (PyDict.get d (fingerprint docK)) as [[doc0 s0]|] eqn:Hget.
    + assert (Hin : fingerprint docK ∈ PyDict.keys d).
      { destruct (decide (fingerprint docK ∈ PyDict.keys d)) as [|Hn];
          [done|]. apply dict_get_None in Hn. congruence. }
      rewrite IH; [|by rewrite dict_set_keys|done].
      rewrite dict_set_keys by done.
      rewrite bump_set by done.
      rewrite (filter_cons_False _ (docK, sK)); [done|].
      simpl. intros Hn. by apply Hn.
    + pose proof Hget as Hout. apply dict_get_None in Hout.
      rewrite dict_set_fresh by done.
      rewrite IH; [|rewrite dict_keys_app; simpl|done].
      * rewrite map_app, dict_keys_app. simpl.
        rewrite filter_fresh_key by done.
        rewrite (bump_other (docK, sK)) by done.
        rewrite (filter_cons_True _ (docK, sK)) by done.
        rewrite <- app_assoc. simpl. do 2 f_equal.
        unfold bump, weighted. simpl.
        rewrite score_of_absent by done. do 3 f_equal. ring.
      * apply NoDup_app. split; [done|]. split; [|apply NoDup_singleton].
        intros x Hx Hx'. apply list_elem_of_singleton in Hx'. by subst.
Qed.
End MergeFacts.

(** The first loop, for any weight, on vector results of distinct
    fingerprints. *)
Lemma fold_add_vector w (results : list scored) (d : PyDict.dict entry) :
  NoDup (PyDict.keys d ++ fingerprints results) ->
  fold_left (add_vector w) results d = d ++ map (weighted w) results.
Proof.
  revert d. induction results as [|[doc s] results IH]; intros d Hnd; simpl.
  - by rewrite app_nil_r.
  - assert (Hfresh : fingerprint doc ∉ PyDict.keys d).
    { apply NoDup_app in Hnd as (_ & Hd & _). intros Hin.
      apply (Hd _ Hin). by left. }
    rewrite dict_set_fresh by done. rewrite IH.
    + by rewrite <- app_assoc.
    + rewrite dict_keys_app. simpl. rewrite <- app_assoc. done.
Qed.

(** The fusion of two lists of distinct fingerprints, for any weight:
    the merged list, sorted. *)
Lemma combine_results_merged vector_results keyword_results w :
  NoDup (fingerprints vector_results) ->
  NoDup (fingerprints keyword_results) ->
  _combine_results vector_results keyword_results w None
  = sort_desc (merged vector_results keyword_results w).
Proof.
  intros Hv Hk. unfold _combine_results, merged.
  rewrite fold_add_vector by (simpl; by rewrite normalize_fingerprints).
  assert (Hkeys : PyDict.keys (map (weighted w) (normalize vector_results))
                  = fingerprints vector_results).
  { unfold PyDict.keys. rewrite map_map. simpl.
    apply normalize_fingerprints. }
  rewrite fold_add_keyword;
    [|simpl; by rewrite Hkeys|by rewrite normalize_fingerprints].
  simpl. rewrite Hkeys. f_equal.
  unfold PyDict.values. rewrite map_app, !map_map. done.
Qed.

(** C5, as the code has it. For result lists of distinct fingerprints:
    with [vectorWeight = 1.0] the fused list is the pure vector ranking
    followed by the keyword-only documents at score 0, hence exactly the
    pure vector ranking when the vector search returned every keyword
    result; with [vectorWeight = 0.0] the fused list is the sorted list of
    the vector documents, each with the normalized keyword score of its
    fingerprint (0 when the keyword search did not return it), followed
    by the keyword-only results with their normalized keyword score,
    hence exactly the pure keyword ranking when there are no vector
    results. *)
Theorem combine_extreme_weights (vector_results keyword_results : list scored) :
  NoDup (fingerprints vector_results) ->
  NoDup (fingerprints keyword_results) ->
  _combine_results vector_results keyword_results 1 None
  = pure_ranking vector_results
    ++ map (fun doc => (doc, 0)) (keyword_only vector_results keyword_results)
  /\ (keyword_only vector_results keyword_results = [] ->
      _combine_results vector_results keyword_results 1 None
      = pure_ranking vector_results)
  /\ _combine_results vector_results keyword_results 0 None
     = sort_desc
         (map (fun doc => (doc, score_of (normalize keyword_results)
                                         (fingerprint doc)))
              (map fst vector_results)
          ++ filter (fun r => fingerprint r.1 ∉ fingerprints vector_results)
                    (normalize keyword_results))
  /\ _combine_results [] keyword_results 0 None = pure_ranking keyword_results.
Proof.
  intros Hv Hk.
  assert (Hone : _combine_results vector_results keyword_results 1 None
                 = pure_ranking vector_results
                   ++ map (fun doc => (doc, 0))
                          (keyword_only vector_results keyword_results)).
  { unfold _combine_results, pure_ranking, keyword_only.
    rewrite fold_add_vector_one
      by (simpl; by rewrite normalize_fingerprints).
    rewrite fold_add_keyword_zero. simpl.
    rewrite keys_entries, normalize_fingerprints, normalize_docs.
    unfold PyDict.values. rewrite map_app.
    fold (PyDict.values (map entry_of (normalize vector_results))).
    rewrite values_entries, map_map. simpl.
    apply sort_desc_app_low; [|apply sort_desc_zeros].
    eapply Forall_impl; [apply normalize_nonneg|].
    intros r Hr. simpl. apply Forall_forall. intros y Hy.
    apply list_elem_of_In, in_map_iff in Hy as (doc & <- & _). done. }
  split; [done|]. split; [|split].
  - intros Hnone. rewrite Hone, Hnone. simpl. by rewrite app_nil_r.
  - rewrite combine_results_merged by done. unfold merged. f_equal. f_equal.
    + rewrite <- (normalize_docs vector_results), map_map.
      apply map_ext. intros [doc s]. simpl. f_equal. ring.
    + rewrite <- (map_id (filter _ (normalize keyword_results))) at 2.
      apply map_ext. intros [doc s]. simpl. f_equal. ring.
  - unfold _combine_results, pure_ranking. simpl.
    rewrite fold_add_keyword_one
      by (simpl; by rewrite normalize_fingerprints).
    simpl. by rewrite values_entries.
Qed.

Lemma combine_extreme_weights_witness :
  let vector_results := [(scenario_c1, Q2Qc 0.9); (scenario_c2, Q2Qc 0.2)] in
  let keyword_results := [(scenario_c2, Q2Qc 0.8)] in
  _combine_results vector_results keyword_results 1 None
  = pure_ranking vector_results
    ++ map (fun doc => (doc, 0)) (keyword_only vector_results keyword_results)
  /\ (keyword_only vector_results keyword_results = [] ->
      _combine_results vector_results keyword_results 1 None
      = pure_ranking vector_results)
  /\ _combine_results vector_results keyword_results 0 None
     = sort_desc
         (map (fun doc => (doc, score_of (normalize keyword_results)
                                         (fingerprint doc)))
              (map fst vector_results)
          ++ filter (fun r => fingerprint r.1 ∉ fingerprints vector_results)
                    (normalize keyword_results))
  /\ _combine_results [] keyword_results 0 None = pure_ranking keyword_results.
Proof.
  cbv zeta.
  apply (combine_extreme_weights
           [(scenario_c1, Q2Qc 0.9); (scenario_c2, Q2Qc 0.2)]
           [(scenario_c2, Q2Qc 0.8)]).
  - apply (bool_decide_unpack _). vm_compute. exact I.
  - apply (bool_decide_unpack _). vm_compute. exact I.
Defined.

(** A keyword result that the vector search did not return is in the
    fused list at weight 1.0, and a vector result that the keyword search
    did not return is in the fused list at weight 0.0: neither fusion is
    the pure ranking. *)
Lemma fusion_is_not_pure_ranking :
  _combine_results [(scenario_c1, Q2Qc 0.9)] [(scenario_c2, Q2Qc 0.8)] 1 None
  <> pure_ranking [(scenario_c1, Q2Qc 0.9)]
  /\ _combine_results [(scenario_c1, Q2Qc 0.9)] [(scenario_c2, Q2Qc 0.8)] 0 None
     <> pure_ranking [(scenario_c2, Q2Qc 0.8)].
Proof.
  split; intros Heq; apply (f_equal length) in Heq; vm_compute in Heq;
    discriminate.
Qed.

(* ===================================================================== *)
(** * Further properties of the code *)
(* ===================================================================== *)

(** ** Normalization *)

Lemma py_max_ge_all (l : list Qc) (m : Qc) :
  Forall (fun s => s <= py_max m l) l.
Proof.
  revert m. induction l as [|s l IH]; intros m; [constructor|].
  unfold py_max in *. simpl. constructor; [|apply IH].
  case_bool_decide as Hlt.
  - apply (py_max_ge l s).
  - eapply Qcle_trans; [by apply Qcnot_lt_le | apply (py_max_ge l m)].
Qed.

Lemma Qcdiv_le_1 (x r : Qc) : 0 < r -> x <= r -> x / r <= 1.
Proof.
  intros Hr Hx. unfold Qcdiv.
  replace 1 with (r * / r)
    by (apply Qcmult_inv_r; intros ->; by apply (Qclt_not_eq 0 0)).
  apply Qcmult_le_compat_r; [done|].
  apply Qclt_le_weak. by apply Qcinv_pos.
Qed.

Lemma normalize_le_1 results : Forall (fun r => r.2 <= 1) (normalize results).
Proof.
  unfold normalize. destruct (map snd results) as [|s0 scores] eqn:E;
    [constructor|].
  destruct (py_min_le scores s0) as [Hmin0 Hmin].
  pose proof (py_max_ge scores s0) as Hmax0.
  pose proof (py_max_ge_all scores s0) as Hmax.
  set (lo := py_min s0 scores) in *. set (hi := py_max s0 scores) in *.
  assert (Hall : Forall (fun s => lo <= s /\ s <= hi) (map snd results)).
  { rewrite E. constructor; [done|].
    apply Forall_forall. intros s Hs. rewrite Forall_forall in Hmin, Hmax.
    split; [by apply Hmin | by apply Hmax]. }
  clear E. induction results as [|[doc s] results IH]; [constructor|].
  simpl in Hall. apply Forall_cons in Hall as [[Hlo Hhi] Hall].
  simpl. constructor; [|by apply IH]. simpl.
  case_bool_decide as Hne.
  - apply Qcdiv_le_1.
    + assert (Hle : lo <= hi) by (eapply Qcle_trans; eauto).
      apply Qcle_lt_or_eq in Hle as [Hlt|Heq]; [|by subst].
      unfold Qcminus. by apply Qclt_minus_iff in Hlt.
    + unfold Qcminus. apply Qcplus_le_compat; [done | apply Qcle_refl].
  - assert (s = lo) as -> by (apply Qcle_antisym; [by rewrite <- Hne | done]).
    replace ((lo - lo) / 1) with 0 by (field; done). done.
Qed.

(** X1. [normalize] keeps the documents and their order, and rescales
    every score into the interval from 0 to 1. *)
Theorem normalize_unit_interval (results : list scored) :
  map fst (normalize results) = map fst results
  /\ length (normalize results) = length results
  /\ Forall (fun r => 0 <= r.2 /\ r.2 <= 1) (normalize results).
Proof.
  split; [apply normalize_docs|]. split.
  - transitivity (length (map fst (normalize results)));
      [symmetry; apply length_map|].
    rewrite normalize_docs. apply length_map.
  - pose proof (normalize_nonneg results) as H0.
    pose proof (normalize_le_1 results) as H1.
    rewrite Forall_forall in *. intros r Hr. split; [by apply H0 | by apply H1].
Qed.

Lemma py_max_constant (c : Qc) (l : list Qc) :
  Forall (fun s => s = c) l -> py_max c l = c /\ py_min c l = c.
Proof.
  induction 1 as [|s l -> Hl [IH1 IH2]]; [done|].
  unfold py_max, py_min in *. simpl.
  rewrite !bool_decide_eq_false_2 by (apply Qcle_not_lt, Qcle_refl). done.
Qed.

(** X2. A list whose scores are all equal is normalized to all zeros: the
    range of the division is replaced by 1, there is no division by
    zero. *)
Theorem normalize_constant (c : Qc) (docs : list Document) :
  normalize (map (fun doc => (doc, c)) docs) = map (fun doc => (doc, 0)) docs.
Proof.
  unfold normalize. rewrite map_map. simpl.
  destruct docs as [|doc0 docs]; [done|]. cbn [map].
  destruct (py_max_constant c (map (fun _ : Document => c) docs)) as [-> ->].
  { apply Forall_forall. intros s Hs.
    apply list_elem_of_In, in_map_iff in Hs as (? & <- & _). done. }
  rewrite bool_decide_eq_false_2 by (intros Hne; by apply Hne).
  rewrite map_map. cbn [map]. f_equal.
  - f_equal. field. done.
  - apply map_ext. intros doc. f_equal. field. done.
Qed.

(** ** One entry per fingerprint *)

Lemma Forall_filter_keep {A : Type} (Q P : A -> Prop)
    `{forall x, Decision (P x)} (l : list A) :
  Forall Q l -> Forall Q (filter P l).
Proof.
  induction 1 as [|x l Hx Hl IH]; [constructor|].
  rewrite filter_cons. destruct (decide (P x)); [by constructor | done].
Qed.

Section DictInvariant.
Context {V : Type}.
Implicit Types (d : PyDict.dict V) (k : str) (v : V).

Lemma dict_set_elem d k v k' :
  k' ∈ PyDict.keys (PyDict.set k v d) <-> k' = k \/ k' ∈ PyDict.keys d.
Proof.
  destruct (decide (k ∈ PyDict.keys d)) as [Hin|Hout].
  - rewrite dict_set_keys by done. split; [tauto|]. by intros [->|].
  - rewrite dict_set_fresh, dict_keys_app by done. simpl.
    rewrite elem_of_app, list_elem_of_singleton. tauto.
Qed.

Lemma dict_set_NoDup d k v :
  NoDup (PyDict.keys d) -> NoDup (PyDict.keys (PyDict.set k v d)).
Proof.
  intros Hnd. destruct (decide (k ∈ PyDict.keys d)) as [Hin|Hout].
  - by rewrite dict_set_keys.
  - rewrite dict_set_fresh, dict_keys_app by done. simpl.
    apply NoDup_app. split; [done|]. split; [|apply NoDup_singleton].
    intros x Hx Hx'. apply list_elem_of_singleton in Hx'. by subst.
Qed.

Lemma dict_set_Forall (P : str * V -> Prop) d k v :
  Forall P d -> P (k, v) -> Forall P (PyDict.set k v d).
Proof.
  intros Hd Hkv. induction Hd as [|[k' v'] d Hh Hd IH]; simpl.
  - by constructor.
  - case_decide; constructor; done.
Qed.

Lemma dict_get_elem d k v : PyDict.get d k = Some v -> (k, v) ∈ d.
Proof.
  induction d as [|[k' v'] d IH]; simpl; [done|].
  case_decide as Hk.
  - intros [= ->]. subst. by left.
  - intros Hget. right. by apply IH.
Qed.
End DictInvariant.

Lemma keyed_values (d : PyDict.dict scored) :
  Forall (fun e => e.1 = fingerprint e.2.1) d ->
  fingerprints (PyDict.values d) = PyDict.keys d.
Proof.
  induction 1 as [|[f [doc s]] d Hf Hd IH]; [done|].
  unfold fingerprints, PyDict.values, PyDict.keys in *. simpl in *.
  by rewrite IH, Hf.
Qed.

Lemma add_vector_keyed w d r :
  keyed_by_fingerprint d -> keyed_by_fingerprint (add_vector w d r).
Proof.
  intros [Hnd Hall]. destruct r as [doc s]. unfold add_vector. split.
  - by apply dict_set_NoDup.
  - by apply dict_set_Forall.
Qed.

Lemma add_keyword_keyed kw d r :
  keyed_by_fingerprint d -> keyed_by_fingerprint (add_keyword kw d r).
Proof.
  intros [Hnd Hall]. destruct r as [doc s]. unfold add_keyword, entry.
  cbv zeta.
  destruct (PyDict.get d (fingerprint doc)) as [[doc0 s0]|] eqn:Hget.
  - split; [by apply dict_set_NoDup|]. apply dict_set_Forall; [done|].
    apply dict_get_elem in Hget. rewrite Forall_forall in Hall.
    apply (Hall _ Hget).
  - split; [by apply dict_set_NoDup | by apply dict_set_Forall].
Qed.

Lemma add_vector_keys w d r f :
  f ∈ PyDict.keys (add_vector w d r)
  <-> f = fingerprint r.1 \/ f ∈ PyDict.keys d.
Proof. destruct r as [doc s]. apply dict_set_elem. Qed.

Lemma add_keyword_keys kw d r f :
  f ∈ PyDict.keys (add_keyword kw d r)
  <-> f = fingerprint r.1 \/ f ∈ PyDict.keys d.
Proof.
  destruct r as [doc s]. unfold add_keyword. cbv zeta.
  match goal with
  | |- context [@PyDict.get ?V ?d' ?k] =>
      destruct (@PyDict.get V d' k) as [[doc0 s0]|]
  end; apply dict_set_elem.
Qed.

Lemma fold_keyed (step : PyDict.dict scored -> scored -> PyDict.dict scored)
    results d :
  (forall d r, keyed_by_fingerprint d -> keyed_by_fingerprint (step d r)) ->
  keyed_by_fingerprint d -> keyed_by_fingerprint (fold_left step results d).
Proof.
  intros Hstep. revert d. induction results as [|r results IH]; intros d Hd;
    [done|]. simpl. by apply IH, Hstep.
Qed.

Lemma fold_keys (step : PyDict.dict scored -> scored -> PyDict.dict scored)
    results d f :
  (forall d r f, f ∈ PyDict.keys (step d r)
                 <-> f = fingerprint r.1 \/ f ∈ PyDict.keys d) ->
  f ∈ PyDict.keys (fold_left step results d)
  <-> f ∈ fingerprints results \/ f ∈ PyDict.keys d.
Proof.
  intros Hstep. revert d. induction results as [|r results IH]; intros d.
  - simpl. split; [tauto|]. intros [Hin|]; [|done]. by apply elem_of_nil in Hin.
  - simpl. rewrite IH, Hstep. unfold fingerprints. simpl.
    rewrite elem_of_cons. tauto.
Qed.

Lemma filter_keyed (P : str * scored -> Prop) `{forall e, Decision (P e)}
    (d : list (str * scored)) :
  keyed_by_fingerprint d -> keyed_by_fingerprint (filter P d).
Proof.
  intros [Hnd Hall]. split.
  - unfold PyDict.keys in *.
    apply (sublist_NoDup _ (map fst d)); [done|].
    clear Hnd Hall. induction d as [|e d IH]; [done|].
    rewrite filter_cons. destruct (decide (P e)); simpl.
    + by apply sublist_skip.
    + by apply sublist_cons.
  - by apply Forall_filter_keep.
Qed.

Lemma fingerprints_perm (l l' : list scored) :
  l ≡ₚ l' -> fingerprints l ≡ₚ fingerprints l'.
Proof. intros Hp. unfold fingerprints. by apply Permutation_map. Qed.

Lemma combined_dict_keyed vector_results keyword_results w :
  keyed_by_fingerprint
    (fold_left (add_keyword (1 - w)) (normalize keyword_results)
       (fold_left (add_vector w) (normalize vector_results) [])).
Proof.
  apply fold_keyed; [intros; by apply add_keyword_keyed|].
  apply fold_keyed; [intros; by apply add_vector_keyed|].
  split; [constructor | constructor].
Qed.

Lemma combined_fingerprints
    (vector_results keyword_results : list scored) (vector_weight : Qc)
    (filter_metadata : option (PyDict.dict str)) :
  NoDup (fingerprints (_combine_results vector_results keyword_results
                                        vector_weight filter_metadata))
  /\ (forall f,
         f ∈ fingerprints (_combine_results vector_results keyword_results
                                            vector_weight None)
         <-> f ∈ fingerprints vector_results
             \/ f ∈ fingerprints keyword_results).
Proof.
  pose proof (combined_dict_keyed vector_results keyword_results
                vector_weight) as Hkeyed.
  split.
  - unfold _combine_results.
    set (d := fold_left _ _ (fold_left _ _ _)) in *.
    assert (Hd : forall d', keyed_by_fingerprint d' ->
                 NoDup (fingerprints (sort_desc (PyDict.values d')))).
    { intros d' [Hnd Hall].
      rewrite (fingerprints_perm _ _ (sort_desc_perm _)).
      by rewrite keyed_values. }
    destruct filter_metadata as [[|kv f]|]; try by apply Hd.
    apply Hd. by apply filter_keyed.
  - intros f. unfold _combine_results.
    rewrite (fingerprints_perm _ _ (sort_desc_perm _)).
    rewrite keyed_values by apply Hkeyed.
    rewrite fold_keys by apply add_keyword_keys.
    rewrite fold_keys by apply add_vector_keys.
    rewrite !normalize_fingerprints. simpl.
    rewrite elem_of_nil. tauto.
Qed.

(** X3. The fused list has exactly one result per fingerprint of the two
    inputs: no fingerprint occurs twice, with or without a metadata
    filter, and without a filter a fingerprint is in the output exactly
    when it is in one of the input lists. *)
Theorem combine_results_one_per_fingerprint
    (vector_results keyword_results : list scored) (vector_weight : Qc)
    (filter_metadata : option (PyDict.dict str)) :
  NoDup (fingerprints (_combine_results vector_results keyword_results
                                        vector_weight filter_metadata))
  /\ (forall f,
         f ∈ fingerprints (_combine_results vector_results keyword_results
                                            vector_weight None)
         <-> f ∈ fingerprints vector_results
             \/ f ∈ fingerprints keyword_results).
Proof. apply combined_fingerprints. Qed.

(** ** The metadata filter *)

Section FilterSort.
Context {A : Type} (P : A * Qc -> Prop) `{forall x, Decision (P x)}.
Implicit Types (x : A * Qc) (l : list (A * Qc)).

Lemma non_increasing_bound q (l : list Qc) :
  non_increasing (q :: l) -> Forall (fun s => s <= q) l.
Proof.
  revert q. induction l as [|s l IH]; intros q Hs; [constructor|].
  apply non_increasing_cons in Hs as [Hq Hs]. simpl in Hq.
  constructor; [done|].
  eapply Forall_impl; [by apply IH|]. intros s' Hs'. simpl in Hs'.
  by eapply Qcle_trans.
Qed.

Lemma insert_desc_front x l :
  Forall (fun y => y.2 <= x.2) l -> insert_desc x l = x :: l.
Proof.
  intros [|y l' Hy _]; [done|]. simpl.
  rewrite bool_decide_eq_false_2; [done | by apply Qcle_not_lt].
Qed.

Lemma filter_insert_desc x l :
  non_increasing (map snd l) ->
  filter P (insert_desc x l)
  = if decide (P x) then insert_desc x (filter P l) else filter P l.
Proof.
  induction l as [|y l IH]; intros Hs.
  - simpl. rewrite filter_cons, filter_nil. by destruct (decide (P x)).
  - cbn [map] in Hs. pose proof Hs as Hbound.
    apply non_increasing_bound in Hbound.
    apply non_increasing_cons in Hs as [_ Hs]. specialize (IH Hs).
    cbn [insert_desc]. case_bool_decide as Hlt.
    + rewrite !(filter_cons _ y), IH.
      destruct (decide (P y)), (decide (P x)); try done.
      cbn [insert_desc]. by rewrite bool_decide_eq_true_2.
    + rewrite (filter_cons _ x), !(filter_cons _ y).
      apply Qcnot_lt_le in Hlt.
      destruct (decide (P x)); [|done].
      destruct (decide (P y)).
      * cbn [insert_desc].
        rewrite bool_decide_eq_false_2; [done | by apply Qcle_not_lt].
      * symmetry. apply insert_desc_front.
        apply Forall_filter_keep. apply Forall_forall. intros z Hz.
        rewrite Forall_forall in Hbound.
        eapply Qcle_trans; [|exact Hlt]. apply Hbound.
        apply list_elem_of_In, in_map. by apply list_elem_of_In.
Qed.

Lemma filter_sort_desc l : filter P (sort_desc l) = sort_desc (filter P l).
Proof.
  induction l as [|x l IH]; [done|].
  change (sort_desc (x :: l)) with (insert_desc x (sort_desc l)).
  rewrite filter_insert_desc by apply sort_desc_sorted.
  rewrite filter_cons, IH. by destruct (decide (P x)).
Qed.
End FilterSort.

Lemma filter_values (p : scored -> bool) (d : list (str * scored)) :
  PyDict.values (filter (fun kv => p kv.2 = true) d)
  = filter (fun r => p r = true) (PyDict.values d).
Proof.
  unfold PyDict.values. induction d as [|[k v] d IH]; [done|].
  cbn [map]. rewrite !filter_cons. simpl.
  destruct (decide (p v = true)); simpl; by rewrite IH.
Qed.

(** X4. A non-empty metadata filter keeps, in their order, exactly the
    results of the unfiltered fusion whose document matches every pair of
    the filter; an empty filter dict is ignored. *)
Theorem combine_results_filter (vector_results keyword_results : list scored)
    (vector_weight : Qc) (kv : str * str) (f : PyDict.dict str) :
  _combine_results vector_results keyword_results vector_weight
                   (Some (kv :: f))
  = filter (fun r => matches (kv :: f) r.1 = true)
           (_combine_results vector_results keyword_results vector_weight None)
  /\ _combine_results vector_results keyword_results vector_weight (Some [])
     = _combine_results vector_results keyword_results vector_weight None.
Proof.
  split; [|done]. unfold _combine_results. symmetry.
  etransitivity; [apply (filter_sort_desc (A := Document))|]. f_equal.
  symmetry. apply (filter_values (fun r => matches (kv :: f) r.1)).
Qed.

(** ** The searches *)

Lemma take_fingerprints_NoDup (k : nat) (l : list scored) :
  NoDup (fingerprints l) -> NoDup (fingerprints (take k l)).
Proof.
  intros Hnd. unfold fingerprints in *. rewrite <- firstn_map.
  apply (sublist_NoDup _ (map (fun r : scored => fingerprint r.1) l));
    [done | apply sublist_take].
Qed.

(** X5. [hybrid_search] fails exactly when the vector search fails;
    otherwise it returns at most [k] results, no two of the same
    fingerprint. *)
Theorem hybrid_search_bounded `{Chroma} `{BM25} (query : str) (k : nat)
    (vector_weight : Qc) (filter_metadata : option (PyDict.dict str)) :
  match hybrid_search query k vector_weight filter_metadata with
  | Some results =>
      (length results <= k)%nat
      /\ NoDup (fingerprints results)
      /\ is_Some (chroma_similarity_search_with_score query (k * 2))
  | None => chroma_similarity_search_with_score query (k * 2) = None
  end.
Proof.
  unfold hybrid_search, VectorStoreManager.similarity_search_with_score.
  destruct (chroma_similarity_search_with_score query (k * 2)) as [raw|];
    simpl; [|done].
  split; [rewrite length_take; lia|]. split; [|by eexists].
  apply take_fingerprints_NoDup.
  apply (proj1 (combined_fingerprints _ _ _ _)).
Qed.

Lemma imap_fst (g : nat -> Qc) (l : list Document) :
  map fst (imap (fun i doc => (doc, g i)) l) = l.
Proof.
  revert g. induction l as [|d l IH]; intros g; [done|].
  cbn [imap map fst]. f_equal. apply (IH (g ∘ S)).
Qed.

Lemma positional_docs documents top_k :
  map fst (positional documents top_k) = take top_k documents.
Proof. unfold positional. apply imap_fst. Qed.

Lemma take_elem {A : Type} (x : A) (n : nat) (l : list A) :
  x ∈ take n l -> x ∈ l.
Proof.
  intros (i & Hi & _)%elem_of_take. by eapply list_elem_of_lookup_2.
Qed.

(** X6. [rerank_results] returns at most [top_k] results, each for one of
    the documents it was given, and nothing for no documents. Without a
    reranking model the documents are the first [top_k] ones in the
    caller's order. *)
Theorem rerank_results_bounded `{CrossEncoder} (query : str)
    (documents : list Document) (top_k : nat) :
  (length (rerank_results query documents top_k) <= top_k)%nat
  /\ Forall (fun r => r.1 ∈ documents) (rerank_results query documents top_k)
  /\ rerank_results query [] top_k = []
  /\ (if reranker_available then True
      else map fst (rerank_results query documents top_k)
           = take top_k documents)
  /\ map fst (positional documents top_k) = take top_k documents.
Proof.
  assert (Hpos : Forall (fun r : scored => r.1 ∈ documents)
                        (positional documents top_k)).
  { apply Forall_forall. intros r Hr.
    apply (take_elem _ top_k). rewrite <- positional_docs.
    apply list_elem_of_In, in_map. by apply list_elem_of_In. }
  assert (Hlen : (length (positional documents top_k) <= top_k)%nat).
  { unfold positional. rewrite length_imap, length_take. lia. }
  unfold rerank_results. repeat split.
  - destruct reranker_available; simpl; [|done].
    destruct (predict query documents); [|done]. rewrite length_take. lia.
  - destruct reranker_available; simpl; [|done].
    destruct (predict query documents) as [scores|]; [|done].
    apply Forall_forall. intros [doc s] Hr. simpl.
    apply take_elem in Hr. rewrite sort_desc_perm in Hr.
    by apply elem_of_zip_l in Hr.
  - destruct reranker_available; simpl;
      [destruct (predict query [])|];
      unfold positional; simpl; by rewrite take_nil.
  - destruct reranker_available; simpl; [done | apply positional_docs].
  - apply positional_docs.
Qed.

Lemma similarity_range (distance : Qc) :
  0 < similarity distance /\ similarity distance <= 1.
Proof.
  pose proof (Qcabs.Qcabs_nonneg distance) as Habs.
  assert (Hpos : 0 < 1 + Qcabs.Qcabs distance).
  { apply Qclt_le_trans with 1; [done|].
    apply Qcle_minus_iff.
    replace (1 + Qcabs.Qcabs distance + - 1) with (Qcabs.Qcabs distance)
      by ring. done. }
  unfold similarity. split.
  - unfold Qcdiv. rewrite Qcmult_1_l. by apply Qcinv_pos.
  - apply Qcdiv_le_1; [done|].
    apply Qcle_minus_iff.
    replace (1 + Qcabs.Qcabs distance + - 1) with (Qcabs.Qcabs distance)
      by ring. done.
Qed.

Lemma similarity_antitone (d1 d2 : Qc) :
  Qcabs.Qcabs d1 <= Qcabs.Qcabs d2 -> similarity d2 <= similarity d1.
Proof.
  intros Hle.
  pose proof (Qcabs.Qcabs_nonneg d1) as H1.
  pose proof (Qcabs.Qcabs_nonneg d2) as H2.
  set (a := Qcabs.Qcabs d1) in *. set (b := Qcabs.Qcabs d2) in *.
  assert (Ha : 0 < 1 + a).
  { apply Qclt_le_trans with 1; [done|]. apply Qcle_minus_iff.
    by replace (1 + a + - 1) with a by ring. }
  assert (Hb : 0 < 1 + b).
  { apply Qclt_le_trans with 1; [done|]. apply Qcle_minus_iff.
    by replace (1 + b + - 1) with b by ring. }
  unfold similarity. fold a b. apply Qcle_minus_iff.
  replace (1 / (1 + a) + - (1 / (1 + b)))
    with ((b + - a) * (/ (1 + a) * / (1 + b))).
  - replace 0 with (0 * (/ (1 + a) * / (1 + b))) by ring.
    apply Qcmult_le_compat_r; [by apply (proj1 (Qcle_minus_iff a b))|].
    apply Qclt_le_weak, Qcmult_pos_pos; by apply Qcinv_pos.
  - field. split; intros Heq.
    + exact (Qclt_not_eq _ _ Hb (eq_sym Heq)).
    + exact (Qclt_not_eq _ _ Ha (eq_sym Heq)).
Qed.

(** X7. [similarity_search_with_score] fails exactly when the index
    fails; otherwise it returns the documents of the index in their order,
    each distance turned into a similarity above 0 and at most 1, and a
    distance of larger magnitude never gives a larger similarity. *)
Theorem similarity_search_scores `{Chroma} (query : str) (k : nat) :
  match VectorStoreManager.similarity_search_with_score query k with
  | Some results =>
      exists raw,
        chroma_similarity_search_with_score query k = Some raw
        /\ map fst results = map fst raw
        /\ map snd results = map (fun r => similarity r.2) raw
        /\ Forall (fun r => 0 < r.2 /\ r.2 <= 1) results
  | None => chroma_similarity_search_with_score query k = None
  end
  /\ (forall d1 d2, Qcabs.Qcabs d1 <= Qcabs.Qcabs d2 ->
                    similarity d2 <= similarity d1).
Proof.
  split; [|apply similarity_antitone].
  unfold VectorStoreManager.similarity_search_with_score.
  destruct (chroma_similarity_search_with_score query k) as [raw|]; simpl;
    [|done].
  exists raw. split; [done|].
  repeat split.
  - rewrite map_map. apply map_ext. by intros [doc d].
  - rewrite map_map. apply map_ext. by intros [doc d].
  - apply Forall_forall. intros r Hr.
    apply list_elem_of_In, in_map_iff in Hr as ([doc d] & <- & _).
    apply similarity_range.
Qed.

Lemma omap_length_le {A B : Type} (f : A -> option B) (l : list A) :
  (length (omap f l) <= length l)%nat.
Proof.
  induction l as [|x l IH]; csimpl; [lia|]. destruct (f x); simpl; lia.
Qed.

(** X8. [_bm25_search] returns nothing when the index was not built or
    the corpus is empty; otherwise at most [k] results, each a document of
    the corpus with a strictly positive score. *)
Theorem bm25_search_positive `{BM25} (query : str) (k : nat) :
  (length (_bm25_search query k) <= k)%nat
  /\ Forall (fun r => r.1 ∈ documents /\ 0 < r.2) (_bm25_search query k)
  /\ (if bm25_built then True else _bm25_search query k = [])
  /\ (if bool_decide (documents = []) then _bm25_search query k = []
      else True).
Proof.
  unfold _bm25_search. repeat split.
  - destruct (negb bm25_built || bool_decide (documents = []));
      [simpl; lia|].
    etransitivity; [apply omap_length_le|]. rewrite length_take. lia.
  - destruct (negb bm25_built || bool_decide (documents = []));
      [constructor|].
    apply Forall_forall. intros [doc s] Hr.
    apply list_elem_of_omap in Hr as (idx & _ & Hidx).
    destruct (get_scores _ !! idx) as [s'|] eqn:Hs; [|done].
    destruct (documents !! idx) as [doc'|] eqn:Hd; [|done].
    case_bool_decide; [|done]. injection Hidx as <- <-.
    split; [by eapply list_elem_of_lookup_2 | done].
  - by destruct bm25_built.
  - destruct (bool_decide (documents = [])); [|done].
    by rewrite orb_true_r.
Qed.

(** ** The response cache: accounting, expiry, replacement *)

(** X9. Every lookup is counted exactly once, as a hit when it returns a
    response and as a miss otherwise, and leaves the stored entries as
    they are; a hit also adds 0.01 to the estimated cost saved and the
    entry's tokens to the tokens saved. A write does not touch the
    counters. *)
Theorem lookup_counted_once (self : CacheManager.t) (now : Z) (question : str)
    (r : response) (tokens_used : Z) :
  let before := stats_cache self in
  let after := stats_cache (get_response_cache self now question).2 in
  response_cache (get_response_cache self now question).2
  = response_cache self
  /\ (response_hits after + response_misses after
      = response_hits before + response_misses before + 1)%Z
  /\ match (get_response_cache self now question).1 with
     | Some _ =>
         response_hits after = (response_hits before + 1)%Z
         /\ response_misses after = response_misses before
         /\ estimated_cost_saved after
            = estimated_cost_saved before + Q2Qc 0.01
         /\ (exists cached,
                DiskCache.get (response_cache self) now
                  (_hash_content (strip (lower question))) = Some cached
                /\ total_tokens_saved after
                   = (total_tokens_saved before + tokens cached)%Z)
     | None =>
         response_misses after = (response_misses before + 1)%Z
         /\ response_hits after = response_hits before
         /\ estimated_cost_saved after = estimated_cost_saved before
         /\ total_tokens_saved after = total_tokens_saved before
     end
  /\ stats_cache (set_response_cache self now question r tokens_used)
     = stats_cache self.
Proof.
  cbv zeta. unfold get_response_cache.
  destruct (DiskCache.get _ _ _) as [cached|]; [case_bool_decide|];
    cbn [fst snd response_cache stats_cache record_hit record_miss
         response_hits response_misses estimated_cost_saved
         total_tokens_saved set_response_cache];
    repeat split; try lia.
  by exists cached.
Qed.


(** X11. Writing a question again replaces its entry: the cache is as if
    only the later write had happened, whatever the two questions' case
    and surrounding whitespace. *)
Theorem later_write_replaces (self : CacheManager.t) (T1 T2 : Z)
    (question : str) (r1 r2 : response) (tokens1 tokens2 : Z) :
  set_response_cache (set_response_cache self T1 question r1 tokens1)
                     T2 question r2 tokens2
  = set_response_cache self T2 question r2 tokens2
  /\ (get_response_cache
        (set_response_cache (set_response_cache self T1 question r1 tokens1)
                            T2 question r2 tokens2) T2 question).1
     = Some r2.
Proof.
  assert (Heq : set_response_cache
                  (set_response_cache self T1 question r1 tokens1)
                  T2 question r2 tokens2
                = set_response_cache self T2 question r2 tokens2).
  { unfold set_response_cache, DiskCache.set. cbn [response_cache stats_cache].
    by rewrite insert_insert_eq. }
  split; [done|]. rewrite Heq.
  unfold get_response_cache, set_response_cache.
  cbn [response_cache stats_cache]. rewrite diskcache_get_set.
  unfold hours, seconds.
  rewrite bool_decide_eq_true_2 by lia. cbn [timestamp cd_response].
  by rewrite bool_decide_eq_true_2 by lia.
Qed.



(** X13. After [clear_cache('all')] every lookup is a miss and the
    counters start again from zero; [clear_cache('responses')] empties the
    entries and keeps the counters; any other argument changes nothing. *)
Theorem clear_cache_empties (self : CacheManager.t) (now : Z)
    (question cache_type : str) :
  (get_response_cache (CacheAdmin.clear_cache self (py "all")) now question).1
  = None
  /\ stats_cache (CacheAdmin.clear_cache self (py "all")) = mkStats 0 0 0 0
  /\ (get_response_cache (CacheAdmin.clear_cache self (py "responses"))
                         now question).1 = None
  /\ stats_cache (CacheAdmin.clear_cache self (py "responses"))
     = stats_cache self
  /\ (if bool_decide (cache_type ∈ [py "all"; py "responses"]) then True
      else CacheAdmin.clear_cache self cache_type = self).
Proof.
  assert (Hall : CacheAdmin.clear_cache self (py "all")
                 = CacheManager.mk ∅ (mkStats 0 0 0 0)) by done.
  assert (Hresp : CacheAdmin.clear_cache self (py "responses")
                  = CacheManager.mk ∅ (stats_cache self)) by done.
  rewrite Hall, Hresp. repeat split.
  - unfold CacheAdmin.clear_cache. case_bool_decide as Hin; [done|].
    rewrite bool_decide_eq_false_2; [done|].
    intros ->. apply Hin. by left.
Qed.

(** ** The normal form of a question and the shape of a key *)

Lemma lower_cp_idempotent c : lower_cp (lower_cp c) = lower_cp c.
Proof.
  unfold lower_cp.
  destruct ((65 <=? c)%N && (c <=? 90)%N) eqn:E1.
  { apply andb_true_iff in E1 as [H1%N.leb_le H2%N.leb_le].
    replace ((65 <=? c + 32)%N && (c + 32 <=? 90)%N) with false
      by (symmetry; apply andb_false_iff; right; apply N.leb_gt; lia).
    replace ((192 <=? c + 32)%N && (c + 32 <=? 222)%N
             && negb (c + 32 =? 215)%N) with false; [done|].
    symmetry. apply andb_false_iff. left. apply andb_false_iff. left.
    apply N.leb_gt. lia. }
  destruct ((192 <=? c)%N && (c <=? 222)%N && negb (c =? 215)%N) eqn:E2.
  { apply andb_true_iff in E2 as [E2 _].
    apply andb_true_iff in E2 as [H1%N.leb_le H2%N.leb_le].
    replace ((65 <=? c + 32)%N && (c + 32 <=? 90)%N) with false
      by (symmetry; apply andb_false_iff; right; apply N.leb_gt; lia).
    replace ((192 <=? c + 32)%N && (c + 32 <=? 222)%N
             && negb (c + 32 =? 215)%N) with false; [done|].
    symmetry. apply andb_false_iff. left. apply andb_false_iff. right.
    apply N.leb_gt. lia. }
  by rewrite E1, E2.
Qed.

Lemma is_space_lower_cp c : is_space (lower_cp c) = is_space c.
Proof.
  destruct (is_space c) eqn:Hs; [by rewrite is_space_lower|].
  unfold lower_cp.
  destruct ((65 <=? c)%N && (c <=? 90)%N) eqn:E1.
  { apply andb_true_iff in E1 as [H1%N.leb_le H2%N.leb_le].
    apply not_true_is_false. unfold is_space. intros Hc.
    rewrite !orb_true_iff, !andb_true_iff, !N.leb_le, !N.eqb_eq in Hc. lia. }
  destruct ((192 <=? c)%N && (c <=? 222)%N && negb (c =? 215)%N) eqn:E2;
    [|done].
  apply andb_true_iff in E2 as [E2 _].
  apply andb_true_iff in E2 as [H1%N.leb_le H2%N.leb_le].
  apply not_true_is_false. unfold is_space. intros Hc.
  rewrite !orb_true_iff, !andb_true_iff, !N.leb_le, !N.eqb_eq in Hc. lia.
Qed.

Lemma lstrip_lower s : lstrip (lower s) = lower (lstrip s).
Proof.
  induction s as [|c s IH]; [done|]. unfold lower in *. simpl.
  rewrite is_space_lower_cp. by destruct (is_space c).
Qed.

Lemma strip_lower s : strip (lower s) = lower (strip s).
Proof.
  unfold strip, rstrip.
  rewrite lstrip_lower. unfold lower at 1. rewrite <- map_rev.
  fold (lower (rev (lstrip s))). rewrite lstrip_lower.
  unfold lower. by rewrite map_rev.
Qed.

Lemma lower_idempotent s : lower (lower s) = lower s.
Proof.
  unfold lower. rewrite map_map. apply map_ext, lower_cp_idempotent.
Qed.

Lemma lstrip_idempotent s : lstrip (lstrip s) = lstrip s.
Proof.
  induction s as [|c s IH]; [done|]. simpl.
  destruct (is_space c) eqn:Hc; [done|]. simpl. by rewrite Hc.
Qed.

Lemma lstrip_snoc s c :
  is_space c = false -> lstrip (s ++ [c]) = lstrip s ++ [c].
Proof.
  intros Hc. induction s as [|x s IH]; simpl; [by rewrite Hc|].
  by destruct (is_space x).
Qed.

Lemma lstrip_rstrip s : lstrip (rstrip (lstrip s)) = rstrip (lstrip s).
Proof.
  destruct (lstrip s) as [|c t] eqn:Ht; [done|].
  assert (Hc : is_space c = false).
  { clear -Ht. induction s as [|x s IH]; [done|]. simpl in Ht.
    destruct (is_space x) eqn:Hx; [by apply IH|]. by injection Ht as <- _. }
  unfold rstrip. simpl. rewrite lstrip_snoc by done.
  rewrite rev_app_distr. simpl. by rewrite Hc.
Qed.

Lemma strip_idempotent s : strip (strip s) = strip s.
Proof.
  unfold strip. rewrite lstrip_rstrip.
  unfold rstrip. by rewrite rev_involutive, lstrip_idempotent.
Qed.

(** X14. The normal form of a question is the normal form of itself:
    looking up or writing the lowercased, trimmed text of a question
    addresses the entry of the question. *)
Theorem normalized_question_same_key (self : CacheManager.t) (now : Z)
    (question : str) (r : response) (tokens_used : Z) :
  strip (lower (strip (lower question))) = strip (lower question)
  /\ get_response_cache self now (strip (lower question))
     = get_response_cache self now question
  /\ set_response_cache self now (strip (lower question)) r tokens_used
     = set_response_cache self now question r tokens_used.
Proof.
  assert (Hnf : strip (lower (strip (lower question)))
                = strip (lower question)).
  { rewrite <- strip_lower, lower_idempotent. apply strip_idempotent. }
  split; [done|].
  unfold get_response_cache, set_response_cache. by rewrite Hnf.
Qed.





(** ** The stream of [query_stream] *)

Lemma slices_concat (fuel : nat) (s : str) :
  (length s <= fuel)%nat ->
  concat (StreamingRAGSystem.slices fuel s) = s
  /\ Forall (fun c => (0 < length c <= 10)%nat)
            (StreamingRAGSystem.slices fuel s).
Proof.
  revert s. induction fuel as [|fuel IH]; intros s Hlen.
  - destruct s; [by split | simpl in Hlen; lia].
  - destruct s as [|c s]; [by split|].
    cbn [StreamingRAGSystem.slices].
    destruct (IH (drop 10 (c :: s))) as [IH1 IH2].
    { rewrite length_drop. cbn [length] in *. lia. }
    split.
    + cbn [concat]. rewrite IH1. apply take_drop.
    + constructor; [|done]. rewrite length_take. cbn [length]. lia.
Qed.

Lemma chunk_texts_app evs evs' :
  chunk_texts (evs ++ evs') = chunk_texts evs ++ chunk_texts evs'.
Proof. unfold chunk_texts. apply omap_app. Qed.

Lemma chunk_texts_chunks (chunks : list str) :
  chunk_texts (map (fun c => Event chunk (DStr c)) chunks) = chunks.
Proof. induction chunks as [|c chunks IH]; [done|]. simpl. by rewrite IH. Qed.


Lemma replay_text (cached : response) :
  answer_text (StreamingRAGSystem.replay cached) = answer cached.
Proof.
  unfold answer_text, StreamingRAGSystem.replay.
  rewrite !chunk_texts_app, chunk_texts_chunks.
  change (chunk_texts [Event status _]) with (@nil str).
  change (chunk_texts [Event metadata_ev _; Event sources_ev _])
    with (@nil str).
  rewrite app_nil_l, app_nil_r.
  by apply slices_concat.
Qed.

(** X16. On a cache hit [query_stream] replays the stored response
    without touching the backend: a status event, the stored answer cut
    into chunks of 1 to 10 characters whose concatenation is the answer,
    then the stored confidence with method "cached" and the stored
    sources; the entries of the cache are left as they are. *)
Theorem cache_hit_replays `{BaseLLM L} `{Chroma} `{BM25} `{CrossEncoder}
    (k_documents : nat) (c : CacheManager.t) (llm : L) (now now_write : Z)
    (question : str) (use_hybrid use_rerank use_expansion : bool)
    (cached : response) :
  (get_response_cache c now question).1 = Some cached ->
  let r := StreamingRAGSystem.query_stream k_documents (Some c) llm now
             now_write question use_hybrid use_rerank use_expansion in
  StreamingRAGSystem.raised r = false
  /\ StreamingRAGSystem.synthesis_prompts r = []
  /\ StreamingRAGSystem.llm_after r = llm
  /\ (response_cache <$> StreamingRAGSystem.cache_after r)
     = Some (response_cache c)
  /\ answer_text (StreamingRAGSystem.events r) = answer cached
  /\ Forall (fun s => (0 < length s <= 10)%nat)
            (chunk_texts (StreamingRAGSystem.events r))
  /\ (exists chunks,
         StreamingRAGSystem.events r
         = Event status (DStr (py "💾 Cache HIT! Resposta instantânea"))
           :: map (fun s => Event chunk (DStr s)) chunks
           ++ [Event metadata_ev (DMeta (confidence cached) (py "cached"));
               Event sources_ev (DSources (sources cached))]).
Proof.
  intros Hhit r. subst r. unfold StreamingRAGSystem.query_stream.
  pose proof (get_response_cache_store c now question) as Hstore.
  destruct (get_response_cache c now question) as [[cached'|] c'];
    simpl in Hhit; [|done]. injection Hhit as ->.
  cbn [StreamingRAGSystem.raised StreamingRAGSystem.synthesis_prompts
       StreamingRAGSystem.llm_after StreamingRAGSystem.cache_after
       StreamingRAGSystem.events].
  repeat split; try done.
  - simpl in *. by rewrite Hstore.
  - apply replay_text.
  - unfold StreamingRAGSystem.replay.
    rewrite !chunk_texts_app, chunk_texts_chunks.
    change (chunk_texts [Event status _]) with (@nil str).
    change (chunk_texts [Event metadata_ev _; Event sources_ev _])
      with (@nil str).
    rewrite app_nil_l, app_nil_r. by apply slices_concat.
  - by eexists.
Qed.

Lemma cache_hit_replays_witness :
  let cached := mkResponse (py "RAG combina busca e geração.") (Q2Qc 0.8)
                           (py "streaming_hybrid_rerank") [] in
  let c := set_response_cache EmptyCorpusScenario.cache 0
             (py "O que é RAG?") cached 500 in
  let r := StreamingRAGSystem.query_stream
             (H := EmptyCorpusScenario.llm) (H0 := EmptyCorpusScenario.chroma)
             (H1 := EmptyCorpusScenario.bm25)
             (H2 := EmptyCorpusScenario.cross_encoder)
             5 (Some c) tt 1 1 (py "  o que é rag?") true true false in
  StreamingRAGSystem.synthesis_prompts r = []
  /\ answer_text (StreamingRAGSystem.events r) = answer cached.
Proof.
  cbv zeta.
  pose proof (cache_hit_replays (H := EmptyCorpusScenario.llm)
                (H0 := EmptyCorpusScenario.chroma)
                (H1 := EmptyCorpusScenario.bm25)
                (H2 := EmptyCorpusScenario.cross_encoder)
                5 (set_response_cache EmptyCorpusScenario.cache 0
                     (py "O que é RAG?")
                     (mkResponse (py "RAG combina busca e geração.")
                        (Q2Qc 0.8) (py "streaming_hybrid_rerank") []) 500)
                tt 1 1 (py "  o que é rag?") true true false
                (mkResponse (py "RAG combina busca e geração.") (Q2Qc 0.8)
                            (py "streaming_hybrid_rerank") [])) as Hw.
  cbv zeta in Hw.
  destruct Hw as (_ & Hsyn & _ & _ & Htext & _); [|by split].
  vm_compute. reflexivity.
Defined.

Lemma rerank_results_length `{CrossEncoder} query documents top_k :
  (length (rerank_results query documents top_k) <= top_k)%nat.
Proof.
  unfold rerank_results.
  destruct reranker_available; simpl;
    [destruct (predict query documents)|];
    try (unfold positional; rewrite length_imap); rewrite length_take; lia.
Qed.

Lemma final_selection_length `{CrossEncoder} k_documents question use_rerank
    top :
  (length (StreamingRAGSystem.final_selection k_documents question use_rerank
             top) <= k_documents)%nat.
Proof.
  unfold StreamingRAGSystem.final_selection.
  destruct (StreamingRAGSystem.needs_rerank _ _ _).
  - apply rerank_results_length.
  - rewrite length_take. lia.
Qed.

Section AnsweredFacts.
Context {L : Type} `{BaseLLM L} `{Chroma} `{BM25} `{CrossEncoder}.
Variable k_documents : nat.

End AnsweredFacts.


Section StreamRuns.
Context {L : Type} `{BaseLLM L} `{Chroma} `{BM25} `{CrossEncoder}.
Variable k_documents : nat.

Lemma query_stream_miss cache (llm : L) now now_write question
    use_hybrid use_rerank use_expansion :
  cache_miss cache now question ->
  exists cache',
    StreamingRAGSystem.query_stream k_documents cache llm now now_write
      question use_hybrid use_rerank use_expansion
    = StreamingRAGSystem.answer_stream k_documents cache' llm now_write
        question use_hybrid use_rerank use_expansion
    /\ (response_cache <$> cache') = (response_cache <$> cache)
    /\ (is_Some cache' <-> is_Some cache).
Proof.
  intros Hmiss. unfold StreamingRAGSystem.query_stream.
  destruct cache as [c|]; [|by exists None].
  simpl in Hmiss.
  pose proof (get_response_cache_store c now question) as Hstore.
  destruct (get_response_cache c now question) as [[cached|] c'];
    [discriminate|].
  exists (Some c'). split; [done|]. simpl in *. rewrite Hstore.
  split; [done|]. split; by eexists.
Qed.

End StreamRuns.





(** X19. When a search raises on a cache miss, the generator ends by that
    exception after status events only: no chunk is emitted, nothing is
    sent to the backend for synthesis, and the entries of the cache are
    the ones it had. *)
Theorem search_failure_raises `{BaseLLM L} `{Chroma} `{BM25} `{CrossEncoder}
    (k_documents : nat) (cache : option CacheManager.t) (llm : L)
    (now now_write : Z) (question : str)
    (use_hybrid use_rerank use_expansion : bool) :
  cache_miss cache now question ->
  StreamingRAGSystem.search_all k_documents use_hybrid
    (queries_of llm question use_expansion) = None ->
  let r := StreamingRAGSystem.query_stream k_documents cache llm now now_write
             question use_hybrid use_rerank use_expansion in
  StreamingRAGSystem.raised r = true
  /\ Forall (fun e => type e = status) (StreamingRAGSystem.events r)
  /\ StreamingRAGSystem.synthesis_prompts r = []
  /\ (response_cache <$> StreamingRAGSystem.cache_after r)
     = (response_cache <$> cache).
Proof.
  intros Hmiss Hsearch r.
  destruct (query_stream_miss k_documents cache llm now now_write question
              use_hybrid use_rerank use_expansion Hmiss)
    as (cache' & Heq & Hstore & _).
  subst r. rewrite Heq. unfold StreamingRAGSystem.answer_stream.
  unfold queries_of in Hsearch.
  destruct use_expansion.
  - destruct (query_expansion question llm) as [qs llm'].
    cbn [fst] in Hsearch. rewrite Hsearch.
    cbn [StreamingRAGSystem.raised StreamingRAGSystem.events
         StreamingRAGSystem.synthesis_prompts StreamingRAGSystem.cache_after].
    repeat split; try done. by repeat constructor.
  - rewrite Hsearch.
    cbn [StreamingRAGSystem.raised StreamingRAGSystem.events
         StreamingRAGSystem.synthesis_prompts StreamingRAGSystem.cache_after].
    repeat split; try done. by repeat constructor.
Qed.

Lemma search_failure_raises_witness :
  let r := StreamingRAGSystem.query_stream
             (H := EmptyCorpusScenario.llm) (H0 := BrokenIndexScenario.chroma)
             (H1 := EmptyCorpusScenario.bm25)
             (H2 := EmptyCorpusScenario.cross_encoder)
             5 (Some EmptyCorpusScenario.cache) tt 0 0
             EmptyCorpusScenario.question true true false in
  StreamingRAGSystem.raised r = true
  /\ Forall (fun e => type e = status) (StreamingRAGSystem.events r)
  /\ StreamingRAGSystem.synthesis_prompts r = []
  /\ (response_cache <$> StreamingRAGSystem.cache_after r)
     = (response_cache <$> Some EmptyCorpusScenario.cache).
Proof.
  apply (search_failure_raises (H := EmptyCorpusScenario.llm)
           (H0 := BrokenIndexScenario.chroma) (H1 := EmptyCorpusScenario.bm25)
           (H2 := EmptyCorpusScenario.cross_encoder)
           5 (Some EmptyCorpusScenario.cache) tt 0 0
           EmptyCorpusScenario.question true true false).
  - reflexivity.
  - reflexivity.
Defined.

(** ** Deduplication and selection *)

Lemma dict_elem_key {V : Type} (d : PyDict.dict V) k v :
  (k, v) ∈ d -> k ∈ PyDict.keys d.
Proof.
  intros Hin. unfold PyDict.keys. apply list_elem_of_In.
  apply list_elem_of_In in Hin. by apply (in_map fst) in Hin.
Qed.

Lemma dict_elem_unique {V : Type} (d : PyDict.dict V) k v1 v2 :
  NoDup (PyDict.keys d) -> (k, v1) ∈ d -> (k, v2) ∈ d -> v1 = v2.
Proof.
  induction d as [|[k' v'] d IH]; intros Hnd H1 H2;
    [by apply elem_of_nil in H1|].
  simpl in Hnd. apply NoDup_cons in Hnd as [Hk' Hnd].
  apply elem_of_cons in H1 as [H1|H1]; apply elem_of_cons in H2 as [H2|H2].
  - congruence.
  - injection H1 as -> ->. exfalso. apply Hk'. by eapply dict_elem_key.
  - injection H2 as -> ->. exfalso. apply Hk'. by eapply dict_elem_key.
  - by apply IH.
Qed.

Lemma dict_set_elem_of {V : Type} (d : PyDict.dict V) k v e :
  NoDup (PyDict.keys d) ->
  e ∈ PyDict.set k v d -> e = (k, v) \/ (e ∈ d /\ e.1 <> k).
Proof.
  induction d as [|[k' v'] d IH]; simpl; intros Hnd He.
  - apply list_elem_of_singleton in He. by left.
  - apply NoDup_cons in Hnd as [Hk' Hnd]. case_decide as Hk.
    + subst k'. apply elem_of_cons in He as [->|He]; [by left|].
      right. split; [by right|]. intros <-. apply Hk'.
      destruct e as [k v0]. by eapply dict_elem_key.
    + apply elem_of_cons in He as [->|He].
      * right. split; [by left | by intros <-].
      * destruct (IH Hnd He) as [->|[Hin Hne]]; [by left|].
        right. split; [by right | done].
Qed.

Lemma see_best processed seen r :
  best_seen processed seen ->
  best_seen (processed ++ [r]) (StreamingRAGSystem.see seen r).
Proof.
  intros ([Hnd Hkey] & Hbest & Hcov). destruct r as [doc s].
  unfold StreamingRAGSystem.see. cbv zeta.
  rewrite Forall_forall in Hbest.
  assert (Hold : forall e, e ∈ seen -> e.1 <> fingerprint doc ->
            e.2 ∈ processed ++ [(doc, s)]
            /\ forall r, r ∈ processed ++ [(doc, s)] ->
                         fingerprint r.1 = e.1 -> r.2 <= e.2.2).
  { intros e He Hne. destruct (Hbest e He) as [Hin Hle]. split.
    - apply elem_of_app. by left.
    - intros r [Hr|Hr]%elem_of_app Hfp; [by apply Hle|].
      apply list_elem_of_singleton in Hr. subst r. simpl in Hfp. congruence. }
  assert (Hwrite : forall best,
            (forall r, r ∈ processed -> fingerprint r.1 = fingerprint doc ->
                       r.2 <= best) ->
            best <= s ->
            best_seen (processed ++ [(doc, s)])
                      (PyDict.set (fingerprint doc) (doc, s) seen)).
  { intros best Hbelow Hbs. split; [|split].
    - split; [by apply dict_set_NoDup | by apply dict_set_Forall].
    - apply Forall_forall. intros e He.
      apply dict_set_elem_of in He as [->|[He Hne]]; [|by apply Hold|done].
      simpl. split; [apply elem_of_app; right; by left|].
      intros r [Hr|Hr]%elem_of_app Hfp.
      + eapply Qcle_trans; [by apply Hbelow | done].
      + apply list_elem_of_singleton in Hr. subst r. apply Qcle_refl.
    - intros r [Hr|Hr]%elem_of_app; apply dict_set_elem.
      + right. by apply Hcov.
      + apply list_elem_of_singleton in Hr. subst r. by left. }
  destruct (PyDict.get seen (fingerprint doc)) as [[doc0 best]|] eqn:Hget.
  - pose proof (dict_get_elem _ _ _ Hget) as Hin.
    destruct (Hbest _ Hin) as [_ Hle]. simpl in Hle.
    case_bool_decide as Hlt.
    + apply (Hwrite best); [done | by apply Qclt_le_weak].
    + split; [done|]. split.
      * apply Forall_forall. intros e He.
        destruct (decide (e.1 = fingerprint doc)) as [Heq|Hne];
          [|by apply Hold].
        destruct (Hbest e He) as [Hin' Hle']. split;
          [apply elem_of_app; by left|].
        intros r [Hr|Hr]%elem_of_app Hfp; [by apply Hle'|].
        apply list_elem_of_singleton in Hr. subst r. simpl.
        assert (e = (fingerprint doc, (doc0, best))) as ->.
        { destruct e as [k v]. simpl in Heq. subst k. f_equal.
          by eapply dict_elem_unique. }
        simpl. by apply Qcnot_lt_le.
      * intros r [Hr|Hr]%elem_of_app; [by apply Hcov|].
        apply list_elem_of_singleton in Hr. subst r. simpl.
        by eapply dict_elem_key.
  - apply (Hwrite s); [|apply Qcle_refl].
    intros r Hr Hfp. exfalso. apply dict_get_None in Hget.
    apply Hget. rewrite <- Hfp. by apply Hcov.
Qed.

Lemma fold_see_best results processed seen :
  best_seen processed seen ->
  best_seen (processed ++ results)
            (fold_left StreamingRAGSystem.see results seen).
Proof.
  revert processed seen. induction results as [|r results IH];
    intros processed seen Hinv.
  - by rewrite app_nil_r.
  - simpl. replace (processed ++ r :: results)
      with ((processed ++ [r]) ++ results) by by rewrite <- app_assoc.
    by apply IH, see_best.
Qed.

(** X20. The fused shortlist of [query_stream] has at most
    [2 * k_documents] results, no two of the same fingerprint; each is
    one of the search results, with the highest score that any result of
    its fingerprint has. *)
Theorem top_results_best_per_fingerprint (k_documents : nat)
    (all_results : list scored) :
  let top := StreamingRAGSystem.top_results k_documents all_results in
  (length top <= k_documents * 2)%nat
  /\ NoDup (fingerprints top)
  /\ Forall (fun r => r ∈ all_results
                      /\ forall r', r' ∈ all_results ->
                                    fingerprint r'.1 = fingerprint r.1 ->
                                    r'.2 <= r.2)
            top.
Proof.
  cbv zeta. unfold StreamingRAGSystem.top_results.
  destruct (fold_see_best all_results [] []) as ([Hnd Hkey] & Hbest & _).
  { split; [split; constructor|]. split; [constructor|].
    intros r Hr. by apply elem_of_nil in Hr. }
  rewrite app_nil_l in Hbest.
  set (seen := fold_left StreamingRAGSystem.see all_results []) in *.
  split; [rewrite length_take; lia|]. split.
  - apply take_fingerprints_NoDup.
    rewrite (fingerprints_perm _ _ (sort_desc_perm _)).
    by rewrite keyed_values.
  - apply Forall_forall. intros r Hr.
    apply take_elem in Hr. rewrite sort_desc_perm in Hr.
    unfold PyDict.values in Hr.
    apply list_elem_of_In, in_map_iff in Hr as ([f r0] & <- & He).
    apply list_elem_of_In in He.
    rewrite Forall_forall in Hbest, Hkey.
    destruct (Hbest _ He) as [Hin Hle]. specialize (Hkey _ He).
    simpl in *. split; [done|]. intros r' Hr' Hfp. apply Hle; [done|].
    congruence.
Qed.

(** X21. The final selection has at most [k_documents] results, each for
    a document of the shortlist; a shortlist of at most [k_documents]
    results is final as it is, and without reranking the selection is the
    head of the shortlist. *)
Theorem final_selection_bounded `{CrossEncoder} (k_documents : nat)
    (question : str) (use_rerank : bool) (top : list scored) :
  let final := StreamingRAGSystem.final_selection k_documents question
                 use_rerank top in
  (length final <= k_documents)%nat
  /\ Forall (fun r => r.1 ∈ map fst top) final
  /\ (if bool_decide (length top <= k_documents)%nat then final = top
      else True)
  /\ StreamingRAGSystem.final_selection k_documents question false top
     = take k_documents top.
Proof.
  cbv zeta. split; [apply final_selection_length|].
  unfold StreamingRAGSystem.final_selection, StreamingRAGSystem.needs_rerank.
  repeat split.
  - destruct (use_rerank && _).
    + unfold rerank_results.
      assert (Hpos : Forall (fun r : scored => r.1 ∈ map fst top)
                            (positional (map fst top) k_documents)).
      { apply Forall_forall. intros r Hr.
        apply (take_elem _ k_documents). rewrite <- positional_docs.
        apply list_elem_of_In, in_map. by apply list_elem_of_In. }
      destruct reranker_available; simpl; [|done].
      destruct (predict question (map fst top)) as [scores|]; [|done].
      apply Forall_forall. intros [doc s] Hr. simpl.
      apply take_elem in Hr. rewrite sort_desc_perm in Hr.
      by apply elem_of_zip_l in Hr.
    + apply Forall_forall. intros r Hr. apply take_elem in Hr.
      apply list_elem_of_In, in_map. by apply list_elem_of_In.
  - case_bool_decide as Hle; [|done].
    rewrite (bool_decide_eq_false_2 (k_documents < length top)%nat) by lia.
    rewrite andb_false_r. by apply take_ge.
Qed.

(** ** The agent loop, step by step *)

Section AgentSteps.
Context {W : Type} `{AgentWorld W}.
Implicit Types (st : state W).

Lemma run_tool_call t tool_name tool_input st :
  ToolRegistry.get_tool tool_name = Some (Some t) ->
  exists arg,
    run_tool t tool_name tool_input st
    = ((execute (world st) t arg).1,
       mkState (events st) (tool_results st) (planning_calls st)
               (tool_calls st ++ [(t, arg)]) (execute (world st) t arg).2)
    /\ arg = (if bool_decide (t = DateTimeTool) then None
              else Some tool_input).
Proof.
  destruct tool_name as [| | |s| |]; try discriminate. simpl.
  unfold ToolRegistry.tools, PyDict.get. intros Hget.
  repeat case_decide; try discriminate; subst s;
    injection Hget as <-; unfold run_tool;
    match goal with
    | |- context [execute ?w ?t ?a] =>
        exists a; vm_compute is_name; cbv iota;
        destruct (execute w t a); done
    end.
Qed.

Lemma count_type_snoc t evs e :
  count_type t (evs ++ [e])
  = (count_type t evs + (if decide (type e = t) then 1 else 0))%nat.
Proof.
  rewrite count_type_app. f_equal. unfold count_type. case_decide.
  - by rewrite filter_cons_True.
  - by rewrite filter_cons_False.
Qed.

(** The tool block of a round, entered after the planning call was
    counted. *)
Lemma act_counted tool_name tool_input st :
  (length (tool_results st) <= length (tool_calls st))%nat ->
  (S (length (tool_calls st)) <= planning_calls st)%nat ->
  count_type tool_result (events st) = length (tool_results st) ->
  count_type chunk (events st) = 0%nat ->
  count_type metadata_ev (events st) = 0%nat ->
  count_type sources_ev (events st) = 0%nat ->
  Forall returned_by_tool (tool_results st) ->
  well_counted (act tool_name tool_input st).1
  /\ (all_successful (tool_results st) ->
      match (act tool_name tool_input st).2 with
      | Continue => all_successful (tool_results (act tool_name tool_input st).1)
      | Break => failure_last (tool_results (act tool_name tool_input st).1)
      end).
Proof.
  intros Hrc Hcp Hann Hch Hme Hso Hret. unfold act.
  destruct (ToolRegistry.get_tool tool_name) as [[t|]|] eqn:Hget.
  - destruct (run_tool_call t tool_name tool_input st Hget)
      as (arg & -> & _).
    destruct (execute (world st) t arg) as [[result|] w'] eqn:Hex;
      cbn [fst snd].
    + assert (Hnew : well_counted
                (mkState (events st ++ [Event tool_result
                            (DStr (if success result then py "✅ OK"
                                   else py "⚠️ Erro"))])
                   (tool_results st ++ [result]) (planning_calls st)
                   (tool_calls st ++ [(t, arg)]) w')).
      { unfold well_counted.
        cbn [events tool_results planning_calls tool_calls].
        rewrite !count_type_snoc, !length_app. cbn [type length].
        rewrite Hann, Hch, Hme, Hso. simpl.
        repeat split; try lia.
        apply Forall_app. split; [done|]. constructor; [|done].
        by exists (world st), t, arg, w'. }
      destruct (success result) eqn:Hs;
        cbn [fst snd yield events tool_results planning_calls tool_calls
             world]; (split; [exact Hnew|]); intros Hok.
      * apply Forall_app. split; [done|]. by constructor.
      * exists (tool_results st), [result]. by repeat split.
    + split.
      * unfold well_counted.
        cbn [events tool_results planning_calls tool_calls].
        rewrite length_app. simpl. repeat split; try done; lia.
      * intros Hok. exists (tool_results st), [].
        cbn [tool_results]. rewrite app_nil_r. repeat split; [done|].
        simpl. lia.
  - cbn [fst snd]. split; [|done].
    unfold well_counted. repeat split; try done; lia.
  - cbn [fst snd]. split.
    + unfold well_counted. repeat split; try done; lia.
    + intros Hok. exists (tool_results st), []. rewrite app_nil_r.
      repeat split; [done|]. simpl. lia.
Qed.

Lemma all_successful_failure_last rs : all_successful rs -> failure_last rs.
Proof.
  intros Hok. exists rs, []. rewrite app_nil_r. repeat split; [done|].
  simpl. lia.
Qed.

(** One round of the loop. *)
Lemma iterate_counted question iteration st :
  well_counted st ->
  well_counted (iterate question iteration st).1
  /\ (all_successful (tool_results st) ->
      match (iterate question iteration st).2 with
      | Continue =>
          all_successful (tool_results (iterate question iteration st).1)
      | Break => failure_last (tool_results (iterate question iteration st).1)
      end).
Proof.
  intros (Hrc & Hcp & Hann & Hch & Hme & Hso & Hret). unfold iterate.
  destruct (generate (world st) _) as [[response|] w].
  - set (plan := _parse_json_response response).
    set (st1 := mkState (events st) (tool_results st) (S (planning_calls st))
                        (tool_calls st) w).
    set (st2 := match PyDict.get plan (py "reasoning") with
                | Some r => if bool_decide (iteration = 0%nat)
                            then yield (Event reasoning (DFormat (py "💭 ") r)) st1
                            else st1
                | None => st1
                end).
    assert (Hst2 : tool_results st2 = tool_results st
                   /\ tool_calls st2 = tool_calls st
                   /\ planning_calls st2 = S (planning_calls st)
                   /\ forall t, t <> reasoning ->
                        count_type t (events st2) = count_type t (events st)).
    { subst st2. destruct (PyDict.get plan (py "reasoning")) as [r|];
        [|done]. case_bool_decide; [|done].
      repeat split; try done. intros t Ht.
      rewrite count_type_yield. cbn [type events].
      rewrite decide_False by done. subst st1. cbn [events]. lia. }
    clearbody st2. destruct Hst2 as (Hr2 & Hc2 & Hp2 & He2).
    assert (Hwc2 : well_counted st2).
    { unfold well_counted. rewrite Hr2, Hc2, Hp2, !He2 by done.
      repeat split; try done; lia. }
    destruct (flag plan (py "is_complete") || negb (flag plan (py "needs_tool")));
      cbn [fst snd].
    { split; [done|]. rewrite Hr2. apply all_successful_failure_last. }
    destruct (PyDict.get plan (py "tool")) as [tool_name|]; cbn [fst snd];
      [|split; [done|]; rewrite Hr2; apply all_successful_failure_last].
    destruct (truthy tool_name); cbn [fst snd];
      [|split; [done|]; rewrite Hr2; apply all_successful_failure_last].
    match goal with
    | |- context [act ?n ?i ?s] =>
        pose proof (act_counted n i s) as Hact
    end.
    cbn [yield events tool_results planning_calls tool_calls] in Hact.
    rewrite !count_type_snoc in Hact. cbn [type] in Hact.
    rewrite Hr2, Hc2, Hp2, !He2 in Hact by done.
    rewrite !decide_False in Hact by done. rewrite !Nat.add_0_r in Hact.
    apply Hact; try done; lia.
  - cbn [fst snd]. split.
    + unfold well_counted.
      cbn [events tool_results planning_calls tool_calls].
      repeat split; try done; lia.
    + cbn [tool_results]. apply all_successful_failure_last.
Qed.



(** The rounds of the loop. *)
Lemma loop_counted question fuel iteration st :
  well_counted st -> all_successful (tool_results st) ->
  well_counted (loop question fuel iteration st)
  /\ failure_last (tool_results (loop question fuel iteration st)).
Proof.
  revert iteration st. induction fuel as [|fuel IH]; intros i st Hwc Hok.
  - simpl. split; [done | by apply all_successful_failure_last].
  - rewrite loop_unfold.
    destruct (iterate_counted question i st Hwc) as [Hwc' Hok'].
    specialize (Hok' Hok).
    destruct (iterate question i st) as [st' [|]]; cbn [fst snd] in *.
    + by apply IH.
    + done.
Qed.

Lemma initial_counted (w : W) :
  well_counted (initial w) /\ all_successful (tool_results (initial w)).
Proof.
  split; [|constructor]. unfold well_counted, initial.
  cbn [events tool_results planning_calls tool_calls].
  repeat split; try done; try lia.
Qed.

Lemma loop_planning_mono question fuel iteration st :
  (planning_calls st <= planning_calls (loop question fuel iteration st))%nat.
Proof.
  revert iteration st. induction fuel as [|fuel IH]; intros i st; [done|].
  rewrite loop_unfold.
  pose proof (iterate_frame question i st) as (Hpl & _ & _).
  destruct (iterate question i st) as [st' [|]]; cbn [fst] in *.
  - specialize (IH (S i) st'). lia.
  - lia.
Qed.

Lemma plan_and_act_counted question (w : W) :
  well_counted (plan_and_act question w)
  /\ failure_last (tool_results (plan_and_act question w))
  /\ (1 <= planning_calls (plan_and_act question w) <= 3)%nat.
Proof.
  destruct (initial_counted w) as [Hwc Hok].
  destruct (loop_counted question max_iterations 0 (initial w) Hwc Hok)
    as [Hwc' Hfl].
  split; [done|]. split; [done|].
  unfold plan_and_act, max_iterations in *.
  pose proof (loop_calls question 3 0 (initial w)) as [_ Hle].
  rewrite loop_unfold in *.
  pose proof (iterate_frame question 0 (initial w)) as (Hpl & _ & _).
  destruct (iterate question 0 (initial w)) as [st' [|]]; cbn [fst] in *.
  - pose proof (loop_calls question 2 1 st') as [_ Hle'].
    pose proof (loop_planning_mono question 2 1 st') as Hmono.
    cbn [initial planning_calls] in *. lia.
  - cbn [initial planning_calls] in *. lia.
Qed.
End AgentSteps.

(** ** The agent stream *)

Section AgentStream.
Context {W : Type} `{AgentWorld W}.

(** [process_stream] after the loop. *)
Lemma process_stream_tail question (w : W) :
  let st0 := plan_and_act question w in
  let fragments :=
    (generate_stream (world st0) (final_prompt question (tool_results st0))).1
  in
  let st := (process_stream question w).1 in
  tool_results st = tool_results st0
  /\ tool_calls st = tool_calls st0
  /\ planning_calls st = planning_calls st0
  /\ exists tail,
       events st
       = events st0 ++ [synthesizing]
         ++ map (fun c => Event chunk (DStr c)) fragments ++ tail
       /\ match tools_used (tool_results st0) with
          | None => tail = [] /\ (process_stream question w).2 = true
          | Some used =>
              (process_stream question w).2 = false
              /\ exists rest,
                   tail = Event metadata_ev
                            (DAgentMeta used (length (tool_results st0)))
                          :: rest
                   /\ (rest = []
                       \/ exists srcs, srcs <> []
                            /\ rest = [Event sources_ev (DSources srcs)])
          end.
Proof.
  cbv zeta. unfold process_stream.
  set (st0 := plan_and_act question w).
  cbn [yield tool_results tool_calls planning_calls world events].
  replace (match tool_results st0 with
           | [] => py "Responda:" ++ [NL; NL] ++ question
           | t :: l => _create_final_answer_prompt question (t :: l)
           end)
    with (final_prompt question (tool_results st0))
    by (by destruct (tool_results st0)).
  destruct (generate_stream (world st0) _) as [fragments w'] eqn:Hgen.
  cbn [fst tool_results tool_calls planning_calls world events].
  destruct (tools_used (tool_results st0)) as [used|].
  - destruct (document_sources (tool_results st0)) as [|src srcs] eqn:Hsrc;
      cbn [fst snd yield tool_results tool_calls planning_calls events];
      repeat split; try done.
    + eexists. split; [rewrite <- !app_assoc; reflexivity|].
      split; [done|]. eexists. split; [done|]. by left.
    + eexists. split; [rewrite <- !app_assoc; reflexivity|].
      split; [done|]. eexists. split; [done|]. right.
      exists (src :: srcs). by split.
  - cbn [fst snd]. repeat split; try done.
    exists []. by rewrite app_nil_r, <- !app_assoc.
Qed.


End AgentStream.

(** X22. The agent's bookkeeping: there are never more results than
    calls of a tool, nor more calls than planning rounds; between one and
    three planning rounds are made; every recorded result is announced by
    exactly one [tool_result] event. *)
Theorem agent_accounting {W : Type} `{AgentWorld W} (question : str) (w : W) :
  let st := (process_stream question w).1 in
  (length (tool_results st) <= length (tool_calls st))%nat
  /\ (length (tool_calls st) <= planning_calls st)%nat
  /\ (1 <= planning_calls st <= 3)%nat
  /\ count_type tool_result (events st) = length (tool_results st)
  /\ Forall returned_by_tool (tool_results st).
Proof.
  cbv zeta.
  destruct (process_stream_tail question w)
    as (Hr & Hc & Hp & tail & Hev & Htail).
  destruct (plan_and_act_counted question w)
    as ((Hrc & Hcp & Hann & Hch & Hme & Hso & Hret) & _ & Hpl).
  rewrite Hr, Hc, Hp, Hev. repeat split; try done; try lia.
  rewrite !count_type_app, count_type_chunks, Hann by done.
  assert (Htl : count_type tool_result tail = 0%nat).
  { destruct (tools_used _) as [used|].
    - destruct Htail as (_ & rest & -> & [->|(srcs & _ & ->)]); done.
    - by destruct Htail as [-> _]. }
  rewrite Htl. change (count_type tool_result [synthesizing]) with 0%nat. lia.
Qed.

(** X23. A failed tool result ends the loop: in the results of a run
    every result but the last is a success. *)
Theorem failed_tool_ends_loop {W : Type} `{AgentWorld W} (question : str)
    (w : W) :
  failure_last (tool_results (process_stream question w).1)
  /\ failure_last (tool_results (plan_and_act question w)).
Proof.
  destruct (process_stream_tail question w) as (Hr & _).
  destruct (plan_and_act_counted question w) as (_ & Hfl & _).
  by rewrite Hr.
Qed.






(** ** Decoding the planner's answer *)

Lemma find_from_spec (c : N) (s : str) (i : Z) :
  (find_from c s i = (-1)%Z /\ (c ∉ s))
  \/ exists pre post, s = pre ++ c :: post /\ (c ∉ pre)
                      /\ find_from c s i = (i + Z.of_nat (length pre))%Z.
Proof.
  revert i. induction s as [|x s IH]; intros i; cbn [find_from].
  { left. split; [done|]. apply not_elem_of_nil. }
  destruct (N.eqb_spec x c) as [->|Hne].
  { right. exists [], s. repeat split; [apply not_elem_of_nil|].
    cbn [length]. lia. }
  destruct (IH (i + 1)%Z) as [[Hf Hnot]|(pre & post & -> & Hnot & Hf)].
  - left. split; [done|]. rewrite not_elem_of_cons. done.
  - right. exists (x :: pre), post. repeat split.
    + rewrite not_elem_of_cons. done.
    + rewrite Hf. cbn [length]. lia.
Qed.

Lemma rfind_from_spec (c : N) (s : str) (i last : Z) :
  (rfind_from c s i last = last /\ (c ∉ s))
  \/ exists pre post, s = pre ++ c :: post /\ (c ∉ post)
                      /\ rfind_from c s i last = (i + Z.of_nat (length pre))%Z.
Proof.
  revert i last. induction s as [|x s IH]; intros i last; cbn [rfind_from].
  { left. split; [done|]. apply not_elem_of_nil. }
  destruct (IH (i + 1)%Z (if (x =? c)%N then i else last))
    as [[Hf Hnot]|(pre & post & -> & Hnot & Hf)].
  - destruct (N.eqb_spec x c) as [->|Hne].
    + right. exists [], s. repeat split; [done|].
      rewrite Hf. cbn [length]. lia.
    + left. split; [done|]. rewrite not_elem_of_cons. done.
  - right. exists (x :: pre), post. repeat split; [done|].
    rewrite Hf. cbn [length]. lia.
Qed.

(** X27. The planner's answer is decoded from its first opening brace to
    its last closing brace and nothing else: an answer without an opening
    or without a closing brace gives the default plan (no tool, complete),
    and any other plan is what [loads] makes of that delimited part. *)
Theorem parse_json_response_braces {W : Type} `{AgentWorld W}
    (response : str) :
  ((123%N ∉ response) \/ (125%N ∉ response) ->
   _parse_json_response response = default_plan)
  /\ (_parse_json_response response <> default_plan ->
      exists pre body post,
        response = pre ++ [123%N] ++ body ++ [125%N] ++ post
        /\ (123%N ∉ pre) /\ (125%N ∉ post)
        /\ loads ([123%N] ++ body ++ [125%N])
           = Some (_parse_json_response response))
  /\ flag default_plan (py "is_complete") = true
  /\ PyDict.get default_plan (py "tool") = None
  /\ PyDict.get default_plan (py "reasoning") = None.
Proof.
  unfold _parse_json_response, find, rfind.
  split; [|split; [|by vm_compute]].
  - intros [Hno|Hno].
    + destruct (find_from_spec 123 response 0)
        as [[-> _]|(pre & post & -> & _ & _)]; [done|].
      exfalso. apply Hno. rewrite elem_of_app, elem_of_cons. auto.
    + destruct (rfind_from_spec 125 response 0 (-1))
        as [[-> _]|(pre & post & -> & _ & _)].
      * repeat case_bool_decide; try done. lia.
      * exfalso. apply Hno. rewrite elem_of_app, elem_of_cons. auto.
  - intros Hplan.
    destruct (find_from_spec 123 response 0)
      as [[Hf _]|(pre & post & Hresp & Hpre & Hf)];
      rewrite Hf in Hplan |- *; [done|].
    destruct (rfind_from_spec 125 response 0 (-1))
      as [[Hr _]|(pre' & post' & Hresp' & Hpost & Hr)];
      rewrite Hr in Hplan |- *.
    { repeat case_bool_decide; try done; lia. }
    case_bool_decide as Hstart; [|done].
    case_bool_decide as Hend; [|done].
    cbn [andb] in *.
    assert (Hsplit : exists body, pre' = pre ++ 123%N :: body
                                  /\ post = body ++ 125%N :: post').
    { rewrite Hresp in Hresp'.
      apply app_eq_app in Hresp' as [l [[-> Hl]|[-> Hl]]].
      - destruct l as [|x l].
        + cbn in Hl. injection Hl as Hl _. done.
        + rewrite length_app in Hend. cbn [length] in Hend. lia.
      - destruct l as [|x l].
        + cbn in Hl. injection Hl as Hl _. done.
        + cbn in Hl. injection Hl as -> ->. eauto. }
    destruct Hsplit as (body & -> & ->).
    assert (Hslice : slice (pre ++ 123%N :: body ++ 125%N :: post')
                           (0 + Z.of_nat (length pre))
                           (0 + Z.of_nat (length (pre ++ 123%N :: body)) + 1)
                     = [123%N] ++ body ++ [125%N]).
    { unfold slice.
      replace (Z.to_nat (0 + Z.of_nat (length pre))) with (length pre) by lia.
      rewrite drop_app_length.
      replace (Z.to_nat (0 + Z.of_nat (length (pre ++ 123%N :: body)) + 1)
               - length pre)%nat
        with (length ([123%N] ++ body ++ [125%N])).
      2:{ rewrite !length_app. cbn [length]. lia. }
      replace (123%N :: body ++ 125%N :: post')
        with (([123%N] ++ body ++ [125%N]) ++ post')
        by (by rewrite <- !app_assoc).
      apply take_app_length. }
    rewrite Hresp in Hplan |- *.
    rewrite Hslice in Hplan |- *.
    exists pre, body, post'.
    destruct (loads ([123%N] ++ body ++ [125%N])); done.
Qed.

(** ** The tools *)

(** X28. The registry is keyed by the tools' own names: a tool is found
    under its name and under no other value, [list_tools] lists the five
    registered names without repetition, each with the description of its
    tool, and the agent calls a tool found under its name with the
    planner's input - except the date tool, which it calls without
    argument. *)
Theorem registry_keyed_by_name {W : Type} `{AgentWorld W} (t : tool) :
  ToolRegistry.get_tool (JStr (AgentTool.name t)) = Some (Some t)
  /\ (forall v, ToolRegistry.get_tool v = Some (Some t) ->
                v = JStr (AgentTool.name t))
  /\ map fst AgentTool.list_tools = PyDict.keys ToolRegistry.tools
  /\ NoDup (map fst AgentTool.list_tools)
  /\ (AgentTool.name t, AgentTool.description t) ∈ AgentTool.list_tools
  /\ (forall tool_input (st : state W),
        tool_calls (run_tool t (JStr (AgentTool.name t)) tool_input st).2
        = tool_calls st
          ++ [(t, if bool_decide (t = DateTimeTool) then None
                  else Some tool_input)]).
Proof.
  assert (Hget : ToolRegistry.get_tool (JStr (AgentTool.name t))
                 = Some (Some t)) by (by destruct t; vm_compute).
  split; [exact Hget|]. split; [|split; [|split; [|split]]].
  - intros [| | |s| |]; try discriminate. cbn [ToolRegistry.get_tool].
    unfold ToolRegistry.tools, PyDict.get. intros Hv.
    repeat case_decide; try discriminate; subst s;
      injection Hv as <-; reflexivity.
  - by vm_compute.
  - unfold AgentTool.list_tools, ToolRegistry.tools, PyDict.values.
    cbn [map fst snd AgentTool.name].
    repeat (apply NoDup_cons; split;
            [first [apply not_elem_of_nil
                   |rewrite !elem_of_cons, elem_of_nil;
                    intros Hin; repeat destruct Hin as [Hin|Hin];
                    try discriminate; done]|]).
    apply NoDup_nil_2.
  - unfold AgentTool.list_tools.
    apply (list_elem_of_fmap_2
             (fun t => (AgentTool.name t, AgentTool.description t))).
    unfold ToolRegistry.tools, PyDict.values. cbn [map snd].
    rewrite !elem_of_cons. destruct t; auto 10.
  - intros tool_input st.
    destruct (run_tool_call t (JStr (AgentTool.name t)) tool_input st Hget)
      as (arg & -> & ->).
    reflexivity.
Qed.

Lemma forallb_allowed (expression : str) :
  forallb (fun c => bool_decide (c ∈ AgentTool.allowed)) expression = true
  <-> Forall (fun c => c ∈ AgentTool.allowed) expression.
Proof.
  rewrite forallb_forall, Forall_forall. split; intros Hall c Hin.
  - apply list_elem_of_In in Hin.
    exact (bool_decide_eq_true_1 _ (Hall c Hin)).
  - apply bool_decide_eq_true_2, Hall. by apply list_elem_of_In.
Qed.

(** X29. The calculator evaluates nothing but digits, the four operators,
    parentheses, point, comma and space: a result is successful exactly
    when every character of the expression is one of these and the
    evaluation returns, it then carries the evaluated value, and an
    expression with any other character fails whatever its evaluation
    would give. The result always names the tool. *)
Theorem calculator_allow_list (eval : str -> option json)
    (expression : str) :
  let out := AgentTool.calculator_execute eval expression in
  tool_key out.1 = Some (py "calculator")
  /\ (success out.1 = true
      <-> Forall (fun c => c ∈ AgentTool.allowed) expression
          /\ is_Some (eval expression))
  /\ (success out.1 = true -> out.2 = eval expression)
  /\ (forall c, c ∈ expression -> c ∉ AgentTool.allowed ->
      forall eval',
        AgentTool.calculator_execute eval' expression
        = (mkToolResult false (Some (py "calculator")) None, None)).
Proof.
  cbv zeta. unfold AgentTool.calculator_execute.
  destruct (forallb _ expression) eqn:Hall.
  - apply forallb_allowed in Hall.
    repeat split.
    + by destruct (eval expression).
    + done.
    + destruct (eval expression); [by eexists|done].
    + intros [_ [v Hv]]. by rewrite Hv.
    + by destruct (eval expression).
    + intros c Hin Hnot. exfalso. apply Hnot.
      by apply (proj1 (Forall_forall _ _) Hall).
  - assert (Hbad : ~ Forall (fun c => c ∈ AgentTool.allowed) expression).
    { intros Hok. apply forallb_allowed in Hok. congruence. }
    repeat split; try done.
    intros [Hok _]. done.
Qed.




